(** * Market pulse collector: a shallow embedding of
    [services/market_collector.py] and the properties of its aggregation
    pipeline.

    Conventions of the embedding.
    - A Python number is a [float] of Python, an IEEE 754 binary64 double
      ([PrimFloat.float]): the exchange library parses every number of a
      ticker with [float].  [+], [/], [>] and the comparisons of the sort
      are the
      operations of binary64, each rounded to the nearest double, with
      infinities, signed zeros and NaN.  The integer literal [0] of the
      code (the default of [.get(key, 0)], the first total of a record and
      the start value of [sum]) is the double [0.0]: Python converts it to
      that double as soon as it meets a double in [+], [/] or [>].
    - [sum(l)] is the left-to-right fold of [+] from [0], as in CPython up
      to 3.11.  From 3.12 on, [sum] compensates the rounding errors of
      doubles, which may change the last bits of an average over three or
      more observations; the total volume is accumulated with [+=] and is
      the same in every version.
    - [len(l)] is converted to the double of the same value by [/].
    - A Python value that the collector handles is [None] or a number.
    - A Python [dict] is an association list in insertion order; a key is
      bound at most once, a new key goes to the end, and rebinding a key
      keeps its position.
    - A call that may raise returns a [result].
    - [asyncio.gather(..., return_exceptions=True)] returns the outcomes in
      the order of the submitted tasks, whatever the order of completion;
      the outcome of a task is its value or the exception it raised. *)

From Stdlib Require Import List String Ascii Bool ZArith QArith Lia.
From Stdlib Require Import Permutation Sorted.
From Stdlib Require Import Floats Uint63.
Import ListNotations.

Set Implicit Arguments.
Open Scope string_scope.
Open Scope list_scope.

(** ** Python values, exceptions, results *)

Inductive value : Type :=
| VNone
| VNum (x : float).

(** [ConfigurationError] is the error named by the specification; the
    collector has no [raise] statement at all, so only the interpreter and
    the libraries raise.  [NetworkError] stands for what the exchange
    library raises, [DatabaseError] for what the database library
    raises. *)
Inductive exn : Type :=
| TypeError
| KeyError
| ValueError
| ZeroDivisionError
| OverflowError
| NetworkError
| DatabaseError
| ConfigurationError.

Inductive result (A : Type) : Type :=
| Ok (a : A)
| Raise (e : exn).

Arguments Ok {A} a.
Arguments Raise {A} e.

Definition bind {A B : Type} (r : result A) (k : A -> result B) : result B :=
  match r with
  | Ok a => k a
  | Raise e => Raise e
  end.

Notation "x <- r ;; k" := (bind r (fun x => k))
  (at level 61, r at next level, right associativity).

Definition is_ok {A : Type} (r : result A) : bool :=
  match r with Ok _ => true | Raise _ => false end.

(** ** Numbers *)

(** The double of a length or of a small integer.  The conversion is
    exact below [2^53]. *)
Definition float_of_Z (z : Z) : float :=
  if (z <? 0)%Z then PrimFloat.opp (PrimFloat.of_uint63 (Uint63.of_Z (- z)))
  else PrimFloat.of_uint63 (Uint63.of_Z z).

Definition float_of_nat (n : nat) : float := float_of_Z (Z.of_nat n).

(** NaN, and the numbers greater than zero, in the specification of
    binary64 that the operations on doubles refer to. *)
Definition SFnan (x : spec_float) : bool :=
  match x with S754_nan => true | _ => false end.

Definition SFpositive (x : spec_float) : bool := SFltb (S754_zero false) x.

Definition zero : value := VNum 0%float.

Definition is_number (v : value) : bool :=
  match v with VNum _ => true | VNone => false end.

(** The number held by a value; used only where the code has already made
    sure that the value is a number (sort keys). *)
Definition number (v : value) : float :=
  match v with VNum x => x | VNone => 0%float end.

(** [a + b] *)
Definition py_add (a b : value) : result value :=
  match a, b with
  | VNum x, VNum y => Ok (VNum (x + y)%float)
  | _, _ => Raise TypeError
  end.

(** [a > b] *)
Definition py_gt (a b : value) : result bool :=
  match a, b with
  | VNum x, VNum y => Ok (y <? x)%float
  | _, _ => Raise TypeError
  end.

(** [sum(l)]: a left fold of [+] from the integer 0. *)
Fixpoint sum_from (acc : value) (l : list value) : result value :=
  match l with
  | [] => Ok acc
  | x :: r => acc' <- py_add acc x ;; sum_from acc' r
  end.

Definition py_sum (l : list value) : result value := sum_from zero l.

(** [max(l)]: keeps the first of the greatest elements. *)
Fixpoint max_from (m : value) (l : list value) : result value :=
  match l with
  | [] => Ok m
  | x :: r => b <- py_gt x m ;; max_from (if b then x else m) r
  end.

Definition py_max (l : list value) : result value :=
  match l with
  | [] => Raise ValueError
  | x :: r => max_from x r
  end.

(** [a / len(l)]: the true division of a double by the length. *)
Definition py_div_len (a : value) (n : nat) : result value :=
  match a with
  | VNone => Raise TypeError
  | VNum x =>
      match n with
      | O => Raise ZeroDivisionError
      | S _ => Ok (VNum (x / float_of_nat n)%float)
      end
  end.

(** ** Strings *)

(** [needle in s] for strings. *)
Fixpoint contains (needle s : string) : bool :=
  String.prefix needle s ||
  match s with
  | EmptyString => false
  | String _ s' => contains needle s'
  end.

(** ** Lists: slicing and sorting *)

(** [l[:n]]; a negative [n] counts from the end. *)
Definition slice_to {A : Type} (n : Z) (l : list A) : list A :=
  if (n <? 0)%Z
  then firstn (Z.to_nat (Z.of_nat (List.length l) + n)) l
  else firstn (Z.to_nat n) l.

(** [sorted(l, key=key, reverse=True)]: a stable sort, greatest key first;
    elements with equal keys keep their order.  On keys that [<] orders
    totally, that is when no key is NaN, every stable sort returns the same
    list, the one that insertion builds here.  With a NaN among the keys
    the list that Python returns depends on the steps of its merge sort,
    which are not modelled: the statements on a sorted list are about keys
    that are not NaN. *)
Section Sorting.
Variable A : Type.
Variable key : A -> float.

Fixpoint insert_desc (x : A) (l : list A) : list A :=
  match l with
  | [] => [x]
  | y :: r =>
      if (key y <=? key x)%float then x :: y :: r
      else y :: insert_desc x r
  end.

Fixpoint sorted_desc (l : list A) : list A :=
  match l with
  | [] => []
  | x :: r => insert_desc x (sorted_desc r)
  end.

(** No element of the list has NaN as its key. *)
Definition keys_not_nan (l : list A) : Prop :=
  Forall (fun a => PrimFloat.is_nan (key a) = false) l.
End Sorting.

(** ** Dictionaries in insertion order *)

Section Dict.
Variable V : Type.

Definition dict : Type := list (string * V).

Fixpoint lookup (k : string) (d : dict) : option V :=
  match d with
  | [] => None
  | (k', v) :: r => if String.eqb k k' then Some v else lookup k r
  end.

(** [k in d] *)
Definition mem (k : string) (d : dict) : bool :=
  match lookup k d with Some _ => true | None => false end.

(** [d[k] = v] *)
Fixpoint setitem (k : string) (v : V) (d : dict) : dict :=
  match d with
  | [] => [(k, v)]
  | (k', v') :: r =>
      if String.eqb k k' then (k', v) :: r else (k', v') :: setitem k v r
  end.

Definition keys (d : dict) : list string := map fst d.
Definition values (d : dict) : list V := map snd d.
End Dict.

Arguments lookup {V} k d.
Arguments mem {V} k d.
Arguments setitem {V} k v d.
Arguments keys {V} d.
Arguments values {V} d.

(** ** Tickers *)

(** A ticker as the exchange library returns it: a dictionary in which a
    key may be absent, and a key that is present is bound to a number or to
    [None]. *)
Record raw_ticker : Type := {
  raw_symbol : option string;
  raw_last : option value;
  raw_quoteVolume : option value;
  raw_percentage : option value;
  raw_high : option value;
  raw_low : option value
}.

(** [d.get(k, default)] *)
Definition get (field : option value) (default : value) : value :=
  match field with
  | Some v => v
  | None => default
  end.

(** The ticker dictionary that the collector builds. *)
Record ticker : Type := {
  symbol : string;
  price : value;
  volume_24h : value;
  change_24h : value;
  high_24h : value;
  low_24h : value;
  timestamp : string
}.

(** An exchange instance of the library. *)
Record exchange : Type := {
  fetch_ticker : string -> result raw_ticker;
  fetch_tickers : result (dict raw_ticker)
}.

Record MarketCollector : Type := {
  exchanges : dict exchange;
  exchange_names : list string
}.

(** [__init__]: [ccxt name] is the exchange that [getattr(ccxt, name)]
    builds, if any; a name that fails is logged and left out. *)
Definition init (ccxt : string -> option exchange) (names : list string)
  : MarketCollector :=
  {| exchanges :=
       fold_left
         (fun d exchange_name =>
            match ccxt exchange_name with
            | Some e => setitem exchange_name e d
            | None => d
            end) names [];
     exchange_names := names |}.

(** One entry of the [exchanges] list of an aggregated record. *)
Record contribution : Type := {
  exchange_of : string;
  entry_price : value;
  entry_volume_24h : value;
  entry_change_24h : value
}.

(** The per-symbol record of [symbol_map]. *)
Record aggregated : Type := {
  agg_symbol : string;
  agg_exchanges : list contribution;
  avg_price : value;
  total_volume_24h : value;
  avg_change_24h : value;
  max_change_24h : value
}.

(** What [asyncio.gather] obtains for one entry of [tasks_with_info]: the
    entry [(exchange_name, symbol, task, is_ticker)] with the task replaced
    by its outcome.  [is_ticker] is [True] exactly for a [get_ticker] task,
    whose value is an optional ticker; the other tasks are [get_top_pairs]
    tasks, whose value is a list. *)
Inductive task : Type :=
| TickerTask (symbol : string) (outcome : result (option ticker))
| TopPairsTask (outcome : result (list ticker)).

Section Collector.

(** The reading of the clock, [datetime.utcnow().isoformat()]. *)
Variable utcnow : string.

Definition ticker_of (symbol : string) (t : raw_ticker) : ticker :=
  {| symbol := symbol;
     price := get (raw_last t) zero;
     volume_24h := get (raw_quoteVolume t) zero;
     change_24h := get (raw_percentage t) zero;
     high_24h := get (raw_high t) zero;
     low_24h := get (raw_low t) zero;
     timestamp := utcnow |}.

Definition get_ticker (self : MarketCollector) (exchange_name symbol : string)
  : option ticker :=
  match lookup exchange_name (exchanges self) with
  | None => None
  | Some exchange =>
      match fetch_ticker exchange symbol with
      | Ok t => Some (ticker_of symbol t)
      | Raise _ => None
      end
  end.

(** The comprehension of [get_top_pairs]; the volume is read, and compared
    with 0, only for a key that contains the quote asset. *)
Fixpoint usdt_pairs (tickers : dict raw_ticker) : result (list raw_ticker) :=
  match tickers with
  | [] => Ok []
  | (symbol, t) :: rest =>
      if contains "/USDT" symbol then
        keep <- py_gt (get (raw_quoteVolume t) zero) zero ;;
        pairs <- usdt_pairs rest ;;
        Ok (if keep then t :: pairs else pairs)
      else usdt_pairs rest
  end.

(** The sort key [x.get('quoteVolume', 0)]; every element of [usdt_pairs]
    holds a number there. *)
Definition quote_volume (t : raw_ticker) : float :=
  number (get (raw_quoteVolume t) zero).

(** The loop that fills [results]; [ticker['symbol']] raises [KeyError]
    when the key is absent, which ends the loop with what was appended
    before. *)
Fixpoint append_results (top_pairs : list raw_ticker) : list ticker :=
  match top_pairs with
  | [] => []
  | t :: rest =>
      match raw_symbol t with
      | None => []
      | Some s => ticker_of s t :: append_results rest
      end
  end.

Definition top_pairs_of (exchange : exchange) (limit : Z)
  : result (list raw_ticker) :=
  tickers <- fetch_tickers exchange ;;
  pairs <- usdt_pairs tickers ;;
  Ok (slice_to limit (sorted_desc quote_volume pairs)).

Definition get_top_pairs (self : MarketCollector) (exchange_name : string)
  (limit : Z) : list ticker :=
  match lookup exchange_name (exchanges self) with
  | None => []
  | Some exchange =>
      match top_pairs_of exchange limit with
      | Ok top_pairs => append_results top_pairs
      | Raise _ => []
      end
  end.

(** [if symbols:] *)
Definition truthy (symbols : option (list string)) : bool :=
  match symbols with
  | Some (_ :: _) => true
  | _ => false
  end.

Definition tasks_with_info (self : MarketCollector)
  (symbols : option (list string)) (top_pairs_limit : Z)
  : list (string * task) :=
  flat_map
    (fun exchange_name =>
       if mem exchange_name (exchanges self) then
         match symbols with
         | Some ((_ :: _) as symbols) =>
             map (fun symbol =>
                    (exchange_name,
                     TickerTask symbol
                       (Ok (get_ticker self exchange_name symbol))))
                 symbols
         | _ =>
             [(exchange_name,
               TopPairsTask
                 (Ok (get_top_pairs self exchange_name top_pairs_limit)))]
         end
       else [])
    (exchange_names self).

(** [results[exchange_name]] once the key is known to be bound. *)
Definition getitem (exchange_name : string) (results : dict (list ticker))
  : list ticker :=
  match lookup exchange_name results with
  | Some l => l
  | None => []
  end.

Definition bind_key (exchange_name : string) (results : dict (list ticker))
  : dict (list ticker) :=
  if mem exchange_name results then results
  else setitem exchange_name [] results.

(** One round of the loop that processes the outcomes. *)
Definition process_result (results : dict (list ticker))
  (info : string * task) : dict (list ticker) :=
  let (exchange_name, t) := info in
  match t with
  | TickerTask _ (Raise _) => results
  | TopPairsTask (Raise _) => results
  | TickerTask _ (Ok result) =>
      let results := bind_key exchange_name results in
      match result with
      | Some tk =>
          setitem exchange_name (getitem exchange_name results ++ [tk])
            results
      | None => results
      end
  | TopPairsTask (Ok result) =>
      let results := bind_key exchange_name results in
      setitem exchange_name (getitem exchange_name results ++ result) results
  end.

Definition process_results (tasks : list (string * task))
  : dict (list ticker) :=
  fold_left process_result tasks [].

Definition collect_all_exchanges (self : MarketCollector)
  (symbols : option (list string)) (top_pairs_limit : Z)
  : dict (list ticker) :=
  process_results (tasks_with_info self symbols top_pairs_limit).

(** *** Aggregation *)

Definition fresh (symbol : string) : aggregated :=
  {| agg_symbol := symbol;
     agg_exchanges := [];
     avg_price := zero;
     total_volume_24h := zero;
     avg_change_24h := zero;
     max_change_24h := zero |}.

Definition contribution_of (exchange_name : string) (t : ticker)
  : contribution :=
  {| exchange_of := exchange_name;
     entry_price := price t;
     entry_volume_24h := volume_24h t;
     entry_change_24h := change_24h t |}.

(** The body of the inner loop of [get_market_pulse]. *)
Definition add_ticker (exchange_name : string) (t : ticker)
  (symbol_map : dict aggregated) : result (dict aggregated) :=
  let symbol_map :=
    if mem (symbol t) symbol_map then symbol_map
    else setitem (symbol t) (fresh (symbol t)) symbol_map in
  match lookup (symbol t) symbol_map with
  | None => Raise KeyError
  | Some data =>
      total <- py_add (total_volume_24h data) (volume_24h t) ;;
      Ok (setitem (symbol t)
            {| agg_symbol := agg_symbol data;
               agg_exchanges :=
                 agg_exchanges data ++ [contribution_of exchange_name t];
               avg_price := avg_price data;
               total_volume_24h := total;
               avg_change_24h := avg_change_24h data;
               max_change_24h := max_change_24h data |}
            symbol_map)
  end.

Fixpoint add_tickers (exchange_name : string) (tickers : list ticker)
  (symbol_map : dict aggregated) : result (dict aggregated) :=
  match tickers with
  | [] => Ok symbol_map
  | t :: rest =>
      symbol_map <- add_ticker exchange_name t symbol_map ;;
      add_tickers exchange_name rest symbol_map
  end.

Fixpoint add_exchanges (all_data : dict (list ticker))
  (symbol_map : dict aggregated) : result (dict aggregated) :=
  match all_data with
  | [] => Ok symbol_map
  | (exchange_name, tickers) :: rest =>
      symbol_map <- add_tickers exchange_name tickers symbol_map ;;
      add_exchanges rest symbol_map
  end.

(** The body of the loop that calculates the averages. *)
Definition calculate (data : aggregated) : result aggregated :=
  match agg_exchanges data with
  | [] => Ok data
  | _ :: _ =>
      let prices := map entry_price (agg_exchanges data) in
      let changes := map entry_change_24h (agg_exchanges data) in
      sum_prices <- py_sum prices ;;
      avg_p <- py_div_len sum_prices (List.length prices) ;;
      sum_changes <- py_sum changes ;;
      avg_c <- py_div_len sum_changes (List.length changes) ;;
      max_c <- py_max changes ;;
      Ok {| agg_symbol := agg_symbol data;
            agg_exchanges := agg_exchanges data;
            avg_price := avg_p;
            total_volume_24h := total_volume_24h data;
            avg_change_24h := avg_c;
            max_change_24h := max_c |}
  end.

Fixpoint calculate_all (symbol_map : dict aggregated)
  : result (dict aggregated) :=
  match symbol_map with
  | [] => Ok []
  | (symbol, data) :: rest =>
      data <- calculate data ;;
      rest <- calculate_all rest ;;
      Ok ((symbol, data) :: rest)
  end.

(** The symbol map of [get_market_pulse] when the sort begins. *)
Definition aggregate (all_data : dict (list ticker))
  : result (dict aggregated) :=
  symbol_map <- add_exchanges all_data [] ;;
  calculate_all symbol_map.

(** The sort key [x['total_volume_24h']]; it is a sum that started from 0,
    hence a number. *)
Definition total_volume (data : aggregated) : float :=
  number (total_volume_24h data).

(** The sort and the slice that end [get_market_pulse]. *)
Definition rank (symbol_map : dict aggregated) (top_pairs_limit : Z)
  : list aggregated :=
  slice_to top_pairs_limit (sorted_desc total_volume (values symbol_map)).

Definition get_market_pulse (self : MarketCollector) (top_pairs_limit : Z)
  : result (list aggregated) :=
  let all_data := collect_all_exchanges self None top_pairs_limit in
  symbol_map <- aggregate all_data ;;
  Ok (rank symbol_map top_pairs_limit).

End Collector.

(** ** Notions used in the statements *)

(** The observations of a cycle, in the order in which [get_market_pulse]
    visits them: one (exchange, ticker) pair per ticker collected. *)
Definition observations (all_data : dict (list ticker))
  : list (string * ticker) :=
  flat_map (fun kv => map (pair (fst kv)) (snd kv)) all_data.

(** The observations of one symbol. *)
Definition bucket (s : string) (obs : list (string * ticker))
  : list (string * ticker) :=
  filter (fun o => String.eqb (symbol (snd o)) s) obs.

Definition prices_of (obs : list (string * ticker)) : list float :=
  map (fun o => number (price (snd o))) obs.

Definition volumes_of (obs : list (string * ticker)) : list float :=
  map (fun o => number (volume_24h (snd o))) obs.

Definition changes_of (obs : list (string * ticker)) : list float :=
  map (fun o => number (change_24h (snd o))) obs.

Definition contributions_of (obs : list (string * ticker))
  : list contribution :=
  map (fun o => contribution_of (fst o) (snd o)) obs.

(** The sum of a list of doubles: the numbers are added from left to
    right, starting from 0, and every addition is rounded to the nearest
    double.  The mean is that sum divided by the count, rounded again. *)
Definition total (l : list float) : float :=
  fold_left PrimFloat.add l 0%float.

Definition mean (l : list float) : float :=
  (total l / float_of_nat (List.length l))%float.

(** No number of the list is NaN. *)
Definition no_nan (l : list float) : bool :=
  forallb (fun x => negb (PrimFloat.is_nan x)) l.

(** [m] is a greatest number of the list. *)
Definition is_maximum (m : float) (l : list float) : Prop :=
  In m l /\ forall x, In x l -> (x <=? m)%float = true.

(** The first of the greatest numbers of a list. *)
Fixpoint maximum_from (m : float) (l : list float) : float :=
  match l with
  | [] => m
  | x :: r => maximum_from (if (m <? x)%float then x else m) r
  end.

Definition maximum (l : list float) : float :=
  match l with
  | [] => 0%float
  | x :: r => maximum_from x r
  end.




(** A ticker whose price, volume and change are numbers. *)
Definition numeric_ticker (t : ticker) : bool :=
  is_number (price t) && is_number (volume_24h t) && is_number (change_24h t).

Definition numeric_data (all_data : dict (list ticker)) : bool :=
  forallb (fun o => numeric_ticker (snd o)) (observations all_data).

(** The record that the aggregation holds for symbol [s] once the
    observations [obs] of that symbol are folded in. *)
Definition summary (s : string) (obs : list (string * ticker)) : aggregated :=
  {| agg_symbol := s;
     agg_exchanges := contributions_of obs;
     avg_price := VNum (mean (prices_of obs));
     total_volume_24h := VNum (total (volumes_of obs));
     avg_change_24h := VNum (mean (changes_of obs));
     max_change_24h := VNum (maximum (changes_of obs)) |}.


(** The four aggregates of a record. *)
Definition aggregates (d : aggregated) : value * value * value * value :=
  (avg_price d, total_volume_24h d, avg_change_24h d, max_change_24h d).

(** The inner loop of [get_market_pulse] over the observations. *)
Fixpoint add_observations (obs : list (string * ticker))
  (symbol_map : dict aggregated) : result (dict aggregated) :=
  match obs with
  | [] => Ok symbol_map
  | o :: rest =>
      symbol_map <- add_ticker (fst o) (snd o) symbol_map ;;
      add_observations rest symbol_map
  end.

(** The state of the record of symbol [s] after the first loop has folded
    in the observations [obs] of that symbol. *)
Definition bucket_state (s : string) (obs : list (string * ticker))
  (d : aggregated) : Prop :=
  agg_symbol d = s /\
  agg_exchanges d = contributions_of obs /\
  avg_price d = zero /\
  avg_change_24h d = zero /\
  max_change_24h d = zero /\
  py_sum (map (fun o => volume_24h (snd o)) obs) = Ok (total_volume_24h d).

Definition represents (obs : list (string * ticker))
  (symbol_map : dict aggregated) : Prop :=
  NoDup (keys symbol_map) /\
  forall s,
    match lookup s symbol_map with
    | None => bucket s obs = []
    | Some d => bucket s obs <> [] /\ bucket_state s (bucket s obs) d
    end.

(** The order of a ranking by volume with ties broken by symbol name,
    between an earlier record [a] and a later record [b]: more volume
    first, and the lesser name first among equal volumes. *)
Definition by_volume_then_symbol (a b : aggregated) : Prop :=
  (total_volume b <? total_volume a)%float = true \/
  ((total_volume a =? total_volume b)%float = true /\
   String.leb (agg_symbol a) (agg_symbol b) = true).

(** Greatest key first. *)
Definition descending {A : Type} (key : A -> float) (a b : A) : Prop :=
  (key b <=? key a)%float = true.

(** The order that the sort of [get_market_pulse] establishes. *)
Definition by_volume : aggregated -> aggregated -> Prop :=
  descending total_volume.

(** The order of the tickers that [get_top_pairs] returns. *)
Definition by_ticker_volume : ticker -> ticker -> Prop :=
  descending (fun t => number (volume_24h t)).

(** The records of a list that hold the volume [v], in their order. *)
Definition with_volume (v : float) (l : list aggregated) : list aggregated :=
  filter (fun d => (total_volume d =? v)%float) l.

(** No record of the symbol map holds NaN as its total volume. *)
Definition volumes_not_nan (symbol_map : dict aggregated) : bool :=
  no_nan (map total_volume (values symbol_map)).

(** The tickers that a task contributes to the mapping. *)
Definition tickers_of_task (t : task) : list ticker :=
  match t with
  | TickerTask _ (Ok (Some tk)) => [tk]
  | TopPairsTask (Ok l) => l
  | _ => []
  end.

(** The task ended with an exception. *)
Definition raised (t : task) : bool :=
  match t with
  | TickerTask _ (Raise _) => true
  | TopPairsTask (Raise _) => true
  | _ => false
  end.

Definition tasks_of (exchange_name : string) (tasks : list (string * task))
  : list (string * task) :=
  filter (fun info => String.eqb (fst info) exchange_name) tasks.

(** Every call to the exchange raises, or the exchange was not built. *)
Definition adapter_fails (self : MarketCollector) (exchange_name : string)
  : Prop :=
  match lookup exchange_name (exchanges self) with
  | None => True
  | Some e =>
      (exists err, fetch_tickers e = Raise err) /\
      (forall s, exists err, fetch_ticker e s = Raise err)
  end.

(** A pair of the exchange's answer that [get_top_pairs] admits. *)
Definition qualifies (kv : string * raw_ticker) : bool :=
  contains "/USDT" (fst kv) && (0 <? quote_volume (snd kv))%float.

(** A raw ticker that carries its symbol and a number as its volume. *)
Definition well_formed (kv : string * raw_ticker) : bool :=
  match raw_symbol (snd kv) with Some _ => true | None => false end &&
  is_number (get (raw_quoteVolume (snd kv)) zero).

(** A symbol map whose total volumes the sort can order: none of them is
    NaN; this holds in particular of a symbol map that [get_market_pulse]
    builds, whose total volumes are sums of positive volumes. *)
Definition orderable (symbol_map : dict aggregated) : Prop :=
  volumes_not_nan symbol_map = true \/
  exists utcnow self top_pairs_limit,
    aggregate (collect_all_exchanges utcnow self None top_pairs_limit) =
    Ok symbol_map.

(** ** Scenarios *)

(** The double of a small integer. *)
Definition num (z : Z) : value := VNum (float_of_Z z).

Definition quote (s : string) (last volume change : Z) : raw_ticker :=
  {| raw_symbol := Some s;
     raw_last := Some (num last);
     raw_quoteVolume := Some (num volume);
     raw_percentage := Some (num change);
     raw_high := None;
     raw_low := None |}.

(** An exchange that answers from a fixed table. *)
Definition serving (tickers : dict raw_ticker) : exchange :=
  {| fetch_ticker := fun s =>
       match lookup s tickers with
       | Some t => Ok t
       | None => Raise KeyError
       end;
     fetch_tickers := Ok tickers |}.

(** An exchange that cannot be reached. *)
Definition failing : exchange :=
  {| fetch_ticker := fun _ => Raise NetworkError;
     fetch_tickers := Raise NetworkError |}.

Definition exchange_A : exchange :=
  serving [("BTC/USDT", quote "BTC/USDT" 50000 100 1)].

Definition exchange_B : exchange :=
  serving [("BTC/USDT", quote "BTC/USDT" 50010 300 3)].

Definition both_report : MarketCollector :=
  {| exchanges := [("A", exchange_A); ("B", exchange_B)];
     exchange_names := ["A"; "B"] |}.

Definition A_fails : MarketCollector :=
  {| exchanges := [("A", failing); ("B", exchange_B)];
     exchange_names := ["A"; "B"] |}.

Definition all_fail : MarketCollector :=
  {| exchanges := [("A", failing); ("B", failing)];
     exchange_names := ["A"; "B"] |}.

(** Two symbols with the same volume, the greater name reported first. *)
Definition tied : MarketCollector :=
  {| exchanges :=
       [("A", serving [("ZRX/USDT", quote "ZRX/USDT" 2 100 1);
                       ("ADA/USDT", quote "ADA/USDT" 3 100 1)])];
     exchange_names := ["A"] |}.

(** Three pairs that pass the filter, one that is not quoted in USDT and
    one without volume. *)
Definition five_pairs : MarketCollector :=
  {| exchanges :=
       [("A", serving [("BTC/USDT", quote "BTC/USDT" 50000 300 1);
                       ("ETH/BTC", quote "ETH/BTC" 1 900 1);
                       ("ETH/USDT", quote "ETH/USDT" 3000 500 2);
                       ("XYZ/USDT", quote "XYZ/USDT" 1 0 0);
                       ("SOL/USDT", quote "SOL/USDT" 150 400 3)])];
     exchange_names := ["A"] |}.

(** A ticker in which the exchange binds the last price to [None]. *)
Definition no_last_price : raw_ticker :=
  {| raw_symbol := Some "BTC/USDT";
     raw_last := Some VNone;
     raw_quoteVolume := Some (num 300);
     raw_percentage := Some (num 3);
     raw_high := None;
     raw_low := None |}.

Definition reports_none : MarketCollector :=
  {| exchanges := [("A", serving [("BTC/USDT", no_last_price)])];
     exchange_names := ["A"] |}.

(** The reading of the clock in the scenarios. *)
Definition noon : string := "2024-01-01T12:00:00".

(** One pair per exchange, with the given volume. *)
Definition reporting (s : string) (volume : Z) : exchange :=
  serving [(s, quote s 1 volume 1)].

(** [2^53]: from here on the doubles are two apart, so that adding 1 to it
    is rounded away. *)
Definition two_to_53 : Z := 9007199254740992.

(** Three exchanges report the same pair, one of them a volume of [2^53];
    the two collectors differ only in the order of the exchange names. *)
Definition large_first : MarketCollector :=
  {| exchanges := [("A", reporting "BTC/USDT" two_to_53);
                   ("B", reporting "BTC/USDT" 1);
                   ("C", reporting "BTC/USDT" 1)];
     exchange_names := ["A"; "B"; "C"] |}.

Definition large_last : MarketCollector :=
  {| exchanges := [("A", reporting "BTC/USDT" two_to_53);
                   ("B", reporting "BTC/USDT" 1);
                   ("C", reporting "BTC/USDT" 1)];
     exchange_names := ["B"; "C"; "A"] |}.

(** The record of a symbol that one exchange reported with the given
    volume. *)
Definition reported_once (s : string) (volume : Z) : aggregated :=
  {| agg_symbol := s;
     agg_exchanges :=
       [contribution_of "A" (ticker_of noon s (quote s 1 volume 1))];
     avg_price := num 1;
     total_volume_24h := num volume;
     avg_change_24h := num 1;
     max_change_24h := num 1 |}.

(** A symbol map with a tie, as the aggregation builds it when one
    exchange reports the three symbols in this order: two symbols with
    volume 100, the greater name first, and between them a symbol with
    more volume. *)
Definition tied_map : dict aggregated :=
  [("ZRX/USDT", reported_once "ZRX/USDT" 100);
   ("BTC/USDT", reported_once "BTC/USDT" 300);
   ("ADA/USDT", reported_once "ADA/USDT" 100)].

(** The tickers that a list of tasks contributes, in order. *)
Definition tickers_of_tasks (tasks : list (string * task)) : list ticker :=
  flat_map (fun info => tickers_of_task (snd info)) tasks.

(** ** Notions used in the further properties *)

(** The ticker that the loop of [get_top_pairs] appends for a raw ticker
    that carries its symbol. *)
Definition ticker_of_raw (utcnow : string) (t : raw_ticker) : ticker :=
  ticker_of utcnow
    (match raw_symbol t with Some s => s | None => EmptyString end) t.

(** The key of an entry of the exchange's answer names the quote asset. *)
Definition usdt_key (kv : string * raw_ticker) : bool :=
  contains "/USDT" (fst kv).

Definition option_list {A : Type} (o : option A) : list A :=
  match o with
  | Some a => [a]
  | None => []
  end.

(** The tickers that one round of tasks obtains from one exchange: one
    ticker per symbol that could be fetched, in the order of the symbols,
    or the top pairs when no symbol is asked for. *)
Definition exchange_tickers (utcnow : string) (self : MarketCollector)
  (symbols : option (list string)) (top_pairs_limit : Z)
  (exchange_name : string) : list ticker :=
  if mem exchange_name (exchanges self) then
    match symbols with
    | Some ((_ :: _) as symbols) =>
        flat_map
          (fun symbol => option_list (get_ticker utcnow self exchange_name symbol))
          symbols
    | _ => get_top_pairs utcnow self exchange_name top_pairs_limit
    end
  else [].

(** The tasks that [collect_all_exchanges] creates for one exchange name,
    each with its outcome. *)
Definition tasks_of_exchange (utcnow : string) (self : MarketCollector)
  (symbols : option (list string)) (limit : Z) (exchange_name : string)
  : list (string * task) :=
  if mem exchange_name (exchanges self) then
    match symbols with
    | Some ((_ :: _) as symbols) =>
        map (fun symbol =>
               (exchange_name,
                TickerTask symbol
                  (Ok (get_ticker utcnow self exchange_name symbol))))
            symbols
    | _ =>
        [(exchange_name,
          TopPairsTask (Ok (get_top_pairs utcnow self exchange_name limit)))]
    end
  else [].


(** ** The callers: storing the pulse *)

(** The arguments of one call
    [MarketSnapshot.save_snapshot(db, exchange, symbol, price, volume, change)]. *)
Record snapshot : Type := {
  snapshot_exchange : string;
  snapshot_symbol : string;
  snapshot_price : value;
  snapshot_volume : value;
  snapshot_change : value
}.

(** The call that the two callers make for one entry of [item['exchanges']]. *)
Definition snapshot_of (item : aggregated) (exchange_data : contribution)
  : snapshot :=
  {| snapshot_exchange := exchange_of exchange_data;
     snapshot_symbol := agg_symbol item;
     snapshot_price := avg_price item;
     snapshot_volume := total_volume_24h item;
     snapshot_change := avg_change_24h item |}.

Section Storage.

Variable DB : Type.

(** [MarketSnapshot.save_snapshot] belongs to the database package, whose
    code is not at hand: it is taken as given, as the state of the
    database after the call together with the exception, if the call
    raised one. *)
Variable save_snapshot : DB -> snapshot -> DB * option exn.

(** The inner loop of [collect_and_store]: a save that raises is logged
    and the loop goes on. *)
Fixpoint store_exchanges (item : aggregated)
  (exchanges_of_item : list contribution) (db : DB) (stored_count : nat)
  : DB * nat :=
  match exchanges_of_item with
  | [] => (db, stored_count)
  | exchange_data :: rest =>
      match save_snapshot db (snapshot_of item exchange_data) with
      | (db, None) => store_exchanges item rest db (S stored_count)
      | (db, Some _) => store_exchanges item rest db stored_count
      end
  end.

Fixpoint store_pulse (pulse_data : list aggregated) (db : DB)
  (stored_count : nat) : DB * nat :=
  match pulse_data with
  | [] => (db, stored_count)
  | item :: rest =>
      let (db, stored_count) :=
        store_exchanges item (agg_exchanges item) db stored_count in
      store_pulse rest db stored_count
  end.


(** The loop of [get_pulse_callback] that saves a fresh pulse: there is no
    [try] around the save, so the first exception ends the handler. *)
Fixpoint save_exchanges (item : aggregated)
  (exchanges_of_item : list contribution) (db : DB) : result DB :=
  match exchanges_of_item with
  | [] => Ok db
  | exchange_data :: rest =>
      match save_snapshot db (snapshot_of item exchange_data) with
      | (db, None) => save_exchanges item rest db
      | (_, Some e) => Raise e
      end
  end.

Fixpoint save_pulse (pulse_data : list aggregated) (db : DB) : result DB :=
  match pulse_data with
  | [] => Ok db
  | item :: rest =>
      db <- save_exchanges item (agg_exchanges item) db ;;
      save_pulse rest db
  end.

End Storage.

(** ** The subscription service *)

(** A value of a column of SQLite, by storage class. *)
Inductive sql_value : Type :=
| SqlNull
| SqlInteger (z : Z)
| SqlReal (x : float)
| SqlText (s : string)
| SqlBlob (b : string).

(** The truth value of a column in [row[0] or "free"]: [None], [0], [0.0],
    the empty string and the empty bytes are falsy. *)
Definition sql_truthy (v : sql_value) : bool :=
  match v with
  | SqlNull => false
  | SqlInteger z => negb (z =? 0)%Z
  | SqlReal x => negb (x =? 0)%float
  | SqlText s => negb (String.eqb s "")
  | SqlBlob b => negb (String.eqb b "")
  end.

(** A [datetime]: the microseconds of its fields since
    0001-01-01T00:00:00, and whether it carries a time zone. *)
Record datetime : Type := {
  microseconds : Z;
  aware : bool
}.

(** [datetime.max], 9999-12-31T23:59:59.999999. *)
Definition datetime_max : Z := 315537897599999999.

(** [timedelta(hours=h)], in microseconds; the days of a [timedelta] are
    at most 999999999 in magnitude. *)
Definition timedelta_hours (h : Z) : result Z :=
  if (Z.abs (h / 24) <=? 999999999)%Z then Ok (h * 3600000000)%Z
  else Raise OverflowError.

(** [d + delta]: the result has to be a date of the years 1 to 9999; the
    time zone is kept. *)
Definition datetime_add (d : datetime) (delta : Z) : result datetime :=
  let t := (microseconds d + delta)%Z in
  if ((0 <=? t) && (t <=? datetime_max))%Z
  then Ok {| microseconds := t; aware := aware d |}
  else Raise OverflowError.

(** [now >= d] for a naive [now]: a naive and an aware instant cannot be
    compared. *)
Definition datetime_le (d : datetime) (now : Z) : result bool :=
  if aware d then Raise TypeError else Ok (microseconds d <=? now)%Z.

(** An entry of [SUBSCRIPTION_LEVELS]. *)
Record subscription_level : Type := {
  level_name : string;
  pulse_interval_hours : Z;
  features : list string
}.

Section Subscription.

(** The three intervals that the configuration reads from the environment. *)
Variable FREE_PULSE_INTERVAL_HOURS : Z.
Variable PRO_PULSE_INTERVAL_HOURS : Z.
Variable PREMIUM_PULSE_INTERVAL_HOURS : Z.

(** The three entries of [SUBSCRIPTION_LEVELS]. *)
Definition free_level : subscription_level :=
  {| level_name := "FREE ACCESS";
     pulse_interval_hours := FREE_PULSE_INTERVAL_HOURS;
     features := ["Market pulse every 4 hours"; "Limited signals";
                  "Public data stream"] |}.

Definition pro_level : subscription_level :=
  {| level_name := "PRO ACCESS";
     pulse_interval_hours := PRO_PULSE_INTERVAL_HOURS;
     features := ["Market pulse every 2 hours"; "Extended signals";
                  "Priority data stream"] |}.

Definition premium_level : subscription_level :=
  {| level_name := "PREMIUM ACCESS";
     pulse_interval_hours := PREMIUM_PULSE_INTERVAL_HOURS;
     features := ["Market pulse every 1 hour"; "Full signal feed";
                  "Access to private signals chat"] |}.

Definition SUBSCRIPTION_LEVELS : dict subscription_level :=
  [("free", free_level); ("pro", pro_level); ("premium", premium_level)].

(** The answer of the database to
    [SELECT subscription_level FROM users WHERE user_id = ?]: the row that
    [fetchone] returns, if any, whose only column holds a value of one of
    the storage classes of SQLite; or the exception that opening the
    database, the query or the fetch raised. *)
Variable users : Z -> result (option sql_value).

(** [get_user_subscription]: the pair of ["level"] and ["user_id"];
    [row[0] or "free"] keeps the column unless it is falsy. *)
Definition get_user_subscription (user_id : Z) : result (sql_value * Z) :=
  row <- users user_id ;;
  let level :=
    match row with
    | Some column => if sql_truthy column then column else SqlText "free"
    | None => SqlText "free"
    end in
  Ok (level, user_id).

(** [SUBSCRIPTION_LEVELS[level]], if bound: the keys are strings, and no
    value of another type is equal to a string. *)
Definition level_entry (level : sql_value) : option subscription_level :=
  match level with
  | SqlText s => lookup s SUBSCRIPTION_LEVELS
  | _ => None
  end.

(** [level in SUBSCRIPTION_LEVELS] *)
Definition configured (level : sql_value) : bool :=
  match level_entry level with Some _ => true | None => false end.

(** [can_access_pulse]; [utcnow] is the reading of [datetime.utcnow()], a
    naive instant. *)
Definition can_access_pulse (user_id : Z) (last_pulse_time : option datetime)
  (utcnow : Z) : result bool :=
  subscription <- get_user_subscription user_id ;;
  let level := fst subscription in
  let level := if configured level then level else SqlText "free" in
  match level_entry level with
  | None => Raise KeyError
  | Some info =>
      let interval_hours := pulse_interval_hours info in
      match last_pulse_time with
      | None => Ok true
      | Some last_pulse_time =>
          delta <- timedelta_hours interval_hours ;;
          next_access_time <- datetime_add last_pulse_time delta ;;
          datetime_le next_access_time utcnow
      end
  end.

(** The level that [get_user_subscription] returns for a row. *)
Definition level_of_row (row : option sql_value) : sql_value :=
  match row with
  | Some column => if sql_truthy column then column else SqlText "free"
  | None => SqlText "free"
  end.

(** The entry of [SUBSCRIPTION_LEVELS] that [can_access_pulse] applies to
    the user of a row. *)
Definition applied_level (row : option sql_value) : subscription_level :=
  match level_of_row row with
  | SqlText s =>
      if String.eqb s "pro" then pro_level
      else if String.eqb s "premium" then premium_level
      else free_level
  | _ => free_level
  end.

(** The last lines of [can_access_pulse], once the interval is known. *)
Definition access_after (interval_hours : Z) (last_pulse_time : option datetime)
  (utcnow : Z) : result bool :=
  match last_pulse_time with
  | None => Ok true
  | Some last_pulse_time =>
      delta <- timedelta_hours interval_hours ;;
      next_access_time <- datetime_add last_pulse_time delta ;;
      datetime_le next_access_time utcnow
  end.

Definition get_subscription_info (level : string) : result subscription_level :=
  let level := if mem level SUBSCRIPTION_LEVELS then level else "free" in
  match lookup level SUBSCRIPTION_LEVELS with
  | None => Raise KeyError
  | Some info => Ok info
  end.

End Subscription.

(** ** The referral code of [/start] *)

(** [s[n:]] *)
Fixpoint string_from (n : nat) (s : string) : string :=
  match n, s with
  | O, _ => s
  | S _, EmptyString => EmptyString
  | S n, String _ s => string_from n s
  end.

(** The referral code that [start_command] hands to [process_referral],
    if any, for the arguments [context.args] of the command. *)
Definition referral_code_of (args : option (list string)) : option string :=
  let referral_code :=
    match args with
    | Some (ref_arg :: _) =>
        if String.prefix "ref_" ref_arg then Some (string_from 4 ref_arg)
        else None
    | _ => None
    end in
  match referral_code with
  | Some (String _ _ as code) => Some code
  | _ => None
  end.

(** The start parameter of the invite link that [referral_callback]
    builds, [ref_{referral_code}]. *)
Definition start_parameter (referral_code : string) : string :=
  "ref_" ++ referral_code.

(** The invite link of [referral_callback]. *)
Definition referral_link (bot_username : option string)
  (referral_code : string) : string :=
  let bot_username :=
    match bot_username with
    | Some (String _ _ as name) => name
    | _ => "your_bot"
    end in
  "https://t.me/" ++ bot_username ++ "?start=" ++ start_parameter referral_code.

(** * Facts *)

(** ** Results *)

Lemma bind_ok {A B : Type} (r : result A) (k : A -> result B) (b : B) :
  bind r k = Ok b -> exists a, r = Ok a /\ k a = Ok b.
Proof.
  destruct r as [a | e]; simpl; intros H; [eauto | discriminate].
Qed.

Lemma bind_raise {A B : Type} (r : result A) (k : A -> result B) (e : exn) :
  bind r k = Raise e -> r = Raise e \/ exists a, r = Ok a /\ k a = Raise e.
Proof.
  destruct r as [a | e']; simpl; intros H; [right; eauto | left; congruence].
Qed.

(** ** Dictionaries *)

Section DictFacts.
Variable V : Type.
Implicit Types (d : dict V) (k : string) (v : V).

Lemma lookup_setitem_eq k v d : lookup k (setitem k v d) = Some v.
Proof.
  induction d as [| [k' v'] r IH]; simpl.
  - now rewrite String.eqb_refl.
  - destruct (String.eqb k k') eqn:E; simpl; rewrite E; auto.
Qed.

Lemma lookup_setitem_neq k k' v d :
  k <> k' -> lookup k' (setitem k v d) = lookup k' d.
Proof.
  intros N. induction d as [| [k0 v0] r IH]; simpl.
  - destruct (String.eqb_spec k' k); congruence.
  - destruct (String.eqb_spec k k0) as [-> | N0]; simpl.
    + destruct (String.eqb_spec k' k0); congruence.
    + now rewrite IH.
Qed.

Lemma lookup_none_keys k d : lookup k d = None <-> ~ In k (keys d).
Proof.
  induction d as [| [k' v'] r IH]; simpl.
  - tauto.
  - destruct (String.eqb_spec k k') as [-> | N].
    + split; [discriminate | intros H; exfalso; apply H; now left].
    + rewrite IH. split; [intros H [E | I]; congruence | tauto].
Qed.

Lemma mem_keys k d : mem k d = true <-> In k (keys d).
Proof.
  unfold mem. destruct (lookup k d) eqn:E.
  - split; [intros _ | reflexivity].
    destruct (in_dec string_dec k (keys d)) as [I | N]; [exact I |].
    apply lookup_none_keys in N. congruence.
  - split; [discriminate |]. intros I.
    apply lookup_none_keys in E. contradiction.
Qed.

Lemma keys_setitem k v d :
  keys (setitem k v d) = if mem k d then keys d else keys d ++ [k].
Proof.
  unfold mem. induction d as [| [k' v'] r IH]; simpl.
  - reflexivity.
  - destruct (String.eqb k k') eqn:E; simpl.
    + reflexivity.
    + rewrite IH. now destruct (lookup k r).
Qed.

Lemma NoDup_keys_setitem k v d :
  NoDup (keys d) -> NoDup (keys (setitem k v d)).
Proof.
  intros H. rewrite keys_setitem. destruct (mem k d) eqn:M; [exact H |].
  assert (N : ~ In k (keys d)).
  { intros I. apply mem_keys in I. congruence. }
  clear M. induction (keys d) as [| x l IH]; simpl.
  - constructor; [intros [] | constructor].
  - inversion H as [| ? ? Hx Hl]; subst. constructor.
    + rewrite in_app_iff. simpl. intros [I | [E | []]]; [tauto |].
      subst. apply N. now left.
    + apply IH; [exact Hl |]. intros I. apply N. now right.
Qed.

Lemma lookup_in k v d : lookup k d = Some v -> In (k, v) d.
Proof.
  induction d as [| [k' v'] r IH]; simpl; [discriminate |].
  destruct (String.eqb_spec k k') as [-> | N].
  - intros [= ->]. now left.
  - intros H. right. auto.
Qed.

Lemma in_lookup k v d : NoDup (keys d) -> In (k, v) d -> lookup k d = Some v.
Proof.
  induction d as [| [k' v'] r IH]; simpl; [tauto |].
  intros H I. inversion H as [| ? ? Hk Hr]; subst.
  destruct I as [[= -> ->] | I].
  - now rewrite String.eqb_refl.
  - destruct (String.eqb_spec k k') as [-> | N].
    + exfalso. apply Hk. change (In (fst (k', v)) (map fst r)).
      now apply in_map.
    + auto.
Qed.

End DictFacts.

(** ** Doubles *)

Unset Implicit Arguments.

(** *** The order of the specification of binary64 *)

Lemma SFcompare_antisym (x y : spec_float) :
  SFcompare y x = option_map CompOpp (SFcompare x y).
Proof.
  destruct x as [sx|sx| |sx mx ex], y as [sy|sy| |sy my ey]; simpl; try reflexivity;
    try (destruct sx; reflexivity); try (destruct sy; reflexivity);
    try (destruct sx, sy; reflexivity).
  destruct sx, sy; simpl; try reflexivity;
    rewrite (Z.compare_antisym ex ey); destruct (ex ?= ey)%Z; simpl; try reflexivity;
    change (Pos.compare_cont Eq my mx) with (my ?= mx)%positive;
    change (Pos.compare_cont Eq mx my) with (mx ?= my)%positive;
    rewrite (Pos.compare_antisym mx my); try reflexivity.
Qed.

Lemma SFcompare_refl (x : spec_float) :
  SFcompare x x = if SFnan x then None else Some Eq.
Proof.
  destruct x as [s|s| |s m e]; simpl; try reflexivity;
    try (destruct s; reflexivity).
  rewrite Z.compare_refl.
  change (Pos.compare_cont Eq m m) with (m ?= m)%positive.
  rewrite Pos.compare_refl. destruct s; reflexivity.
Qed.

Lemma SFcompare_none (x y : spec_float) :
  SFcompare x y = None -> SFnan x = true \/ SFnan y = true.
Proof.
  destruct x as [sx|sx| |sx mx ex], y as [sy|sy| |sy my ey]; simpl;
    try discriminate; auto.
Qed.

Lemma SFcompare_some (x y : spec_float) (c : comparison) :
  SFcompare x y = Some c -> SFnan x = false /\ SFnan y = false.
Proof.
  destruct x as [sx|sx| |sx mx ex], y as [sy|sy| |sy my ey]; simpl;
    try discriminate; auto.
Qed.

Lemma SFleb_trans (x y z : spec_float) :
  SFleb x y = true -> SFleb y z = true -> SFleb x z = true.
Proof.
  unfold SFleb.
  destruct x as [sx|sx| |sx mx ex], y as [sy|sy| |sy my ey], z as [sz|sz| |sz mz ez];
    simpl; try discriminate; try reflexivity;
    try (destruct sx; simpl; try discriminate; try reflexivity);
    try (destruct sy; simpl; try discriminate; try reflexivity);
    try (destruct sz; simpl; try discriminate; try reflexivity).
  all: change (Pos.compare_cont Eq mx my) with (mx ?= my)%positive;
       change (Pos.compare_cont Eq my mz) with (my ?= mz)%positive;
       change (Pos.compare_cont Eq mx mz) with (mx ?= mz)%positive.
  all: destruct (Z.compare_spec ex ey), (Z.compare_spec ey ez), (Z.compare_spec ex ez);
       try discriminate; try reflexivity; try lia; subst.
  all: destruct (Pos.compare_spec mx my), (Pos.compare_spec my mz), (Pos.compare_spec mx mz);
       simpl; try discriminate; try reflexivity; try lia.
Qed.

(** *** Rounding keeps a positive number positive *)

Lemma shr_1_digits (s : shr_record) :
  Zdigits2 (shr_m (shr_1 s)) = Z.max 0 (Zdigits2 (shr_m s) - 1).
Proof.
  destruct s as [m r t]. unfold shr_1.
  destruct m as [|p|p]; try (simpl; lia);
    destruct p; unfold Zdigits2, shr_m, digits2_pos; lia.
Qed.

Lemma shr_digits (p : positive) :
  forall s,
    Zdigits2 (shr_m (iter_pos shr_1 p s)) =
    Z.max 0 (Zdigits2 (shr_m s) - Z.pos p).
Proof.
  induction p as [p IH|p IH|]; intros s; simpl.
  - rewrite !IH, shr_1_digits. lia.
  - rewrite !IH. lia.
  - apply shr_1_digits.
Qed.

Lemma shr_1_nonneg (s : shr_record) :
  (0 <= shr_m s -> 0 <= shr_m (shr_1 s))%Z.
Proof.
  destruct s as [m r t]. unfold shr_1.
  destruct m as [|p|p]; simpl; try lia; destruct p; simpl; lia.
Qed.

Lemma shr_nonneg (p : positive) :
  forall s, (0 <= shr_m s -> 0 <= shr_m (iter_pos shr_1 p s))%Z.
Proof.
  induction p as [p IH|p IH|]; intros s H; simpl.
  - apply IH, IH, shr_1_nonneg, H.
  - apply IH, IH, H.
  - apply shr_1_nonneg, H.
Qed.

Lemma Zdigits2_positive (z : Z) : (0 < Zdigits2 z -> 0 <= z -> 0 < z)%Z.
Proof. destruct z; simpl; lia. Qed.

Lemma Zdigits2_of_positive (z : Z) : (0 < z -> 0 < Zdigits2 z)%Z.
Proof. destruct z; simpl; lia. Qed.

Lemma shr_record_of_loc_m (m : Z) (l : location) :
  shr_m (shr_record_of_loc m l) = m.
Proof. destruct l as [|[ | | ]]; reflexivity. Qed.

(** Shifting a positive mantissa to the exponent of its format leaves a
    positive mantissa when the exponent is at least [emin]. *)
Lemma shr_fexp_positive (m e : Z) (l : location) :
  (0 < m)%Z -> (emin <= e)%Z ->
  (0 < shr_m (fst (shr_fexp prec emax m e l)) /\
   emin <= snd (shr_fexp prec emax m e l))%Z.
Proof.
  intros Hm He. unfold shr_fexp, shr.
  pose proof (Zdigits2_of_positive m Hm) as Hd.
  destruct (SpecFloat.fexp prec emax (Zdigits2 m + e) - e)%Z as [|p|p] eqn:E;
    simpl; rewrite ?shr_record_of_loc_m; try (split; [exact Hm | exact He]).
  split.
  - apply Zdigits2_positive.
    + rewrite shr_digits, shr_record_of_loc_m.
      unfold SpecFloat.fexp, SpecFloat.emin in E.
      unfold emin, prec, emax in *. lia.
    + apply shr_nonneg. rewrite shr_record_of_loc_m. lia.
  - lia.
Qed.

Lemma round_nearest_even_ge (m : Z) (l : location) :
  (m <= round_nearest_even m l)%Z.
Proof.
  destruct l as [|[ | | ]]; simpl; try lia. destruct (Z.even m); lia.
Qed.

Lemma binary_round_aux_positive (m e : Z) (l : location) :
  (0 < m)%Z -> (emin <= e)%Z ->
  SFpositive (binary_round_aux prec emax false m e l) = true.
Proof.
  intros Hm He. unfold binary_round_aux.
  destruct (shr_fexp_positive m e l Hm He) as [H1 H2].
  destruct (shr_fexp prec emax m e l) as [mrs' e']. simpl in H1, H2.
  pose proof (round_nearest_even_ge (shr_m mrs') (loc_of_shr_record mrs')) as Hr.
  destruct (shr_fexp_positive
              (round_nearest_even (shr_m mrs') (loc_of_shr_record mrs')) e'
              loc_Exact ltac:(lia) H2) as [H3 H4].
  destruct (shr_fexp prec emax _ e' loc_Exact) as [mrs'' e''].
  simpl in H3, H4.
  destruct (shr_m mrs'') as [|p|p]; try lia.
  destruct (e'' <=? emax - prec)%Z; reflexivity.
Qed.

Lemma binary_round_positive (m : positive) (e : Z) :
  (emin <= e)%Z -> SFpositive (binary_round prec emax false m e) = true.
Proof.
  intros He. unfold binary_round, shl_align.
  set (f := SpecFloat.fexp prec emax (Z.pos (digits2_pos m) + e)).
  assert (emin <= f)%Z
    by (unfold f, SpecFloat.fexp, SpecFloat.emin, emin, prec, emax; lia).
  destruct (f - e)%Z; apply binary_round_aux_positive; lia.
Qed.

Lemma valid_exponent (s : bool) (m : positive) (e : Z) :
  valid_binary (S754_finite s m e) = true -> (emin <= e)%Z.
Proof.
  unfold valid_binary, bounded, canonical_mantissa. intros H.
  apply andb_prop in H. destruct H as [H _]. apply Z.eqb_eq in H.
  unfold SpecFloat.fexp, SpecFloat.emin, emin, prec, emax in *. lia.
Qed.

Lemma SFadd_positive (x y : spec_float) :
  valid_binary x = true -> valid_binary y = true ->
  SFleb (S754_zero false) x = true -> SFpositive y = true ->
  SFpositive (SFadd prec emax x y) = true.
Proof.
  intros Vx Vy Hx Hy.
  destruct x as [sx|sx| |sx mx ex], y as [sy|sy| |sy my ey];
    try discriminate;
    try (destruct sx; try discriminate); try (destruct sy; try discriminate);
    try reflexivity.
  apply valid_exponent in Vx, Vy.
  unfold SFadd, cond_Zopp.
  set (ez := Z.min ex ey).
  destruct (shl_align mx ex ez) as [a ea], (shl_align my ey ez) as [b eb].
  simpl. apply binary_round_positive. unfold ez. lia.
Qed.

(** *** The order of the doubles *)

Lemma is_nan_spec (x : float) : PrimFloat.is_nan x = SFnan (Prim2SF x).
Proof.
  unfold PrimFloat.is_nan. rewrite FloatAxioms.eqb_spec. unfold SFeqb.
  rewrite SFcompare_refl. now destruct (SFnan (Prim2SF x)).
Qed.

Lemma fleb_trans (x y z : float) :
  (x <=? y)%float = true -> (y <=? z)%float = true -> (x <=? z)%float = true.
Proof. rewrite !FloatAxioms.leb_spec. apply SFleb_trans. Qed.

Lemma fleb_refl (x : float) :
  PrimFloat.is_nan x = false -> (x <=? x)%float = true.
Proof.
  rewrite is_nan_spec, FloatAxioms.leb_spec. unfold SFleb. rewrite SFcompare_refl.
  now intros ->.
Qed.

(** Two doubles that are not NaN are comparable. *)
Lemma fleb_total (x y : float) :
  PrimFloat.is_nan x = false -> PrimFloat.is_nan y = false ->
  (x <=? y)%float = false -> (y <? x)%float = true.
Proof.
  rewrite !is_nan_spec, FloatAxioms.leb_spec, FloatAxioms.ltb_spec. unfold SFleb, SFltb.
  intros Nx Ny. rewrite (SFcompare_antisym (Prim2SF x) (Prim2SF y)).
  destruct (SFcompare (Prim2SF x) (Prim2SF y)) as [[ | | ] |] eqn:E;
    simpl; try congruence.
  apply SFcompare_none in E. destruct E; congruence.
Qed.

Lemma fltb_leb (x y : float) :
  (x <? y)%float = true -> (x <=? y)%float = true.
Proof.
  rewrite FloatAxioms.leb_spec, FloatAxioms.ltb_spec. unfold SFleb, SFltb.
  now destruct (SFcompare (Prim2SF x) (Prim2SF y)) as [[ | | ] |].
Qed.

Lemma fltb_not_leb (x y : float) :
  (x <? y)%float = true -> (y <=? x)%float = false.
Proof.
  rewrite FloatAxioms.leb_spec, FloatAxioms.ltb_spec. unfold SFleb, SFltb.
  rewrite (SFcompare_antisym (Prim2SF x) (Prim2SF y)).
  now destruct (SFcompare (Prim2SF x) (Prim2SF y)) as [[ | | ] |].
Qed.

Lemma fltb_false_leb (x y : float) :
  PrimFloat.is_nan x = false -> PrimFloat.is_nan y = false ->
  (x <? y)%float = false -> (y <=? x)%float = true.
Proof.
  rewrite !is_nan_spec, FloatAxioms.leb_spec, FloatAxioms.ltb_spec. unfold SFleb, SFltb.
  intros Nx Ny. rewrite (SFcompare_antisym (Prim2SF x) (Prim2SF y)).
  destruct (SFcompare (Prim2SF x) (Prim2SF y)) as [[ | | ] |] eqn:E;
    simpl; try congruence.
  apply SFcompare_none in E. destruct E; congruence.
Qed.

Lemma fleb_not_nan (x y : float) :
  (x <=? y)%float = true ->
  PrimFloat.is_nan x = false /\ PrimFloat.is_nan y = false.
Proof.
  rewrite !is_nan_spec, FloatAxioms.leb_spec. unfold SFleb.
  destruct (SFcompare (Prim2SF x) (Prim2SF y)) as [c |] eqn:E;
    [| discriminate].
  intros _. exact (SFcompare_some _ _ _ E).
Qed.

Lemma fltb_not_nan (x y : float) :
  (x <? y)%float = true ->
  PrimFloat.is_nan x = false /\ PrimFloat.is_nan y = false.
Proof. intros H. apply fleb_not_nan, fltb_leb, H. Qed.

Lemma feqb_leb (x y : float) :
  (x =? y)%float = true -> (x <=? y)%float = true /\ (y <=? x)%float = true.
Proof.
  rewrite !FloatAxioms.leb_spec, FloatAxioms.eqb_spec. unfold SFleb, SFeqb.
  rewrite (SFcompare_antisym (Prim2SF x) (Prim2SF y)).
  now destruct (SFcompare (Prim2SF x) (Prim2SF y)) as [[ | | ] |].
Qed.

Lemma fleb_antisym (x y : float) :
  (x <=? y)%float = true -> (y <=? x)%float = true -> (x =? y)%float = true.
Proof.
  rewrite !FloatAxioms.leb_spec, FloatAxioms.eqb_spec. unfold SFleb, SFeqb.
  rewrite (SFcompare_antisym (Prim2SF x) (Prim2SF y)).
  now destruct (SFcompare (Prim2SF x) (Prim2SF y)) as [[ | | ] |].
Qed.

(** The sum of a double that is not negative and of a positive double is
    positive: rounding cannot bring it down to zero. *)
Lemma fadd_positive (x y : float) :
  (0 <=? x)%float = true -> (0 <? y)%float = true ->
  (0 <? x + y)%float = true.
Proof.
  rewrite FloatAxioms.leb_spec, !FloatAxioms.ltb_spec, FloatAxioms.add_spec. intros Hx Hy.
  apply SFadd_positive; try apply Prim2SF_valid; assumption.
Qed.

(** Two doubles that differ in a comparison are different. *)
Lemma float_neq (x y : float) : (x =? x)%float <> (x =? y)%float -> x <> y.
Proof. intros H E. apply H. now rewrite <- E. Qed.

Set Implicit Arguments.

(** *** Sums and greatest elements *)

Lemma no_nan_in (l : list float) (x : float) :
  no_nan l = true -> In x l -> PrimFloat.is_nan x = false.
Proof.
  unfold no_nan. rewrite forallb_forall. intros H I.
  apply H in I. now destruct (PrimFloat.is_nan x).
Qed.

Lemma no_nan_cons (x : float) (l : list float) :
  no_nan (x :: l) = true <->
  PrimFloat.is_nan x = false /\ no_nan l = true.
Proof.
  unfold no_nan. simpl. rewrite andb_true_iff.
  now destruct (PrimFloat.is_nan x).
Qed.

Lemma total_positive_from (l : list float) :
  forall acc,
    (0 <=? acc)%float = true ->
    Forall (fun x => (0 <? x)%float = true) l ->
    (0 <=? fold_left PrimFloat.add l acc)%float = true /\
    (l <> [] -> (0 <? fold_left PrimFloat.add l acc)%float = true).
Proof.
  induction l as [| x l IH]; intros acc Ha F; simpl.
  - split; [exact Ha | congruence].
  - inversion F as [| ? ? Hx Hl]; subst.
    pose proof (fadd_positive acc x Ha Hx) as P.
    destruct (@IH _ (fltb_leb _ _ P) Hl) as [I1 I2].
    split; [exact I1 | intros _].
    destruct l as [| y l]; [exact P | apply I2; discriminate].
Qed.

Lemma total_positive (l : list float) :
  l <> [] -> Forall (fun x => (0 <? x)%float = true) l ->
  (0 <? total l)%float = true.
Proof.
  intros N F. unfold total.
  exact (proj2 (@total_positive_from l 0%float eq_refl F) N).
Qed.

Lemma maximum_from_is_maximum (m : float) (l : list float) :
  no_nan (m :: l) = true -> is_maximum (maximum_from m l) (m :: l).
Proof.
  revert m. induction l as [| x l IH]; intros m N; simpl.
  - apply no_nan_cons in N as [Nm _].
    split; [now left |]. intros y [<- | []]. now apply fleb_refl.
  - apply no_nan_cons in N as [Nm N]. apply no_nan_cons in N as [Nx Nl].
    destruct (m <? x)%float eqn:E.
    + destruct (IH x) as [I M]; [now apply no_nan_cons |].
      split.
      * destruct I as [<- | I]; [right; now left | right; now right].
      * intros y [<- | [<- | Hy]].
        -- apply fleb_trans with x; [now apply fltb_leb |].
           apply M. now left.
        -- apply M. now left.
        -- apply M. now right.
    + destruct (IH m) as [I M]; [now apply no_nan_cons |].
      split.
      * destruct I as [<- | I]; [now left | right; now right].
      * intros y [<- | [<- | Hy]].
        -- apply M. now left.
        -- apply fleb_trans with m; [now apply fltb_false_leb |].
           apply M. now left.
        -- apply M. now right.
Qed.

Lemma maximum_is_maximum (l : list float) :
  l <> [] -> no_nan l = true -> is_maximum (maximum l) l.
Proof.
  destruct l as [| x r]; [congruence | intros _ N].
  now apply maximum_from_is_maximum.
Qed.

(** Greatest elements of two lists with the same members are equal as
    numbers. *)
Lemma is_maximum_unique (m m' : float) (l l' : list float) :
  (forall x, In x l <-> In x l') ->
  is_maximum m l -> is_maximum m' l' -> (m =? m')%float = true.
Proof.
  intros P [I M] [I' M'].
  apply fleb_antisym; [apply M', P, I | apply M, P, I'].
Qed.

(** ** The operations of the interpreter *)

Lemma number_VNum (v : value) : is_number v = true -> v = VNum (number v).
Proof. destruct v; simpl; [discriminate | reflexivity]. Qed.

Lemma sum_from_numbers (a : float) (l : list value) :
  forallb is_number l = true ->
  sum_from (VNum a) l =
  Ok (VNum (fold_left PrimFloat.add (map number l) a)).
Proof.
  revert a. induction l as [| x l IH]; intros a H; simpl; [reflexivity |].
  simpl in H. apply andb_prop in H as [Hx Hl].
  destruct x as [| q]; [discriminate |]. simpl.
  now rewrite (IH _ Hl).
Qed.

Lemma py_sum_numbers (l : list value) :
  forallb is_number l = true -> py_sum l = Ok (VNum (total (map number l))).
Proof.
  intros H. unfold py_sum, zero. now rewrite (sum_from_numbers _ _ H).
Qed.

Lemma sum_from_app (a : value) (l l' : list value) :
  sum_from a (l ++ l') = (b <- sum_from a l ;; sum_from b l').
Proof.
  revert a. induction l as [| x l IH]; intros a; simpl; [reflexivity |].
  destruct (py_add a x); simpl; [apply IH | reflexivity].
Qed.

Lemma sum_from_is_number (a v : value) (l : list value) :
  is_number a = true -> sum_from a l = Ok v -> is_number v = true.
Proof.
  revert a. induction l as [| x l IH]; intros a Ha; simpl.
  - now intros [= <-].
  - destruct a as [| p]; [discriminate |].
    destruct x as [| q]; simpl; [discriminate |]. now apply IH.
Qed.

Lemma sum_from_ok_numbers (a v : value) (l : list value) :
  sum_from a l = Ok v -> forallb is_number l = true.
Proof.
  revert a. induction l as [| x l IH]; intros a; simpl; [reflexivity |].
  destruct a as [| p], x as [| q]; simpl; try discriminate.
  intros H. now apply IH in H.
Qed.

Lemma sum_from_raises (a : value) (l : list value) (e : exn) :
  sum_from a l = Raise e -> e = TypeError.
Proof.
  revert a. induction l as [| x l IH]; intros a; simpl; [discriminate |].
  destruct a as [| p], x as [| q]; simpl; try congruence. apply IH.
Qed.

Lemma max_from_numbers (m : float) (l : list value) :
  forallb is_number l = true ->
  max_from (VNum m) l = Ok (VNum (maximum_from m (map number l))).
Proof.
  revert m. induction l as [| x l IH]; intros m H; simpl; [reflexivity |].
  simpl in H. apply andb_prop in H as [Hx Hl].
  destruct x as [| q]; [discriminate |]. simpl.
  destruct (m <? q)%float; now rewrite (IH _ Hl).
Qed.

Lemma py_max_numbers (l : list value) :
  l <> [] -> forallb is_number l = true ->
  py_max l = Ok (VNum (maximum (map number l))).
Proof.
  destruct l as [| x r]; [congruence | intros _ H].
  simpl in H. apply andb_prop in H as [Hx Hr].
  destruct x as [| q]; [discriminate |]. simpl.
  now apply max_from_numbers.
Qed.

Lemma max_from_raises (m : value) (l : list value) (e : exn) :
  max_from m l = Raise e -> e = TypeError.
Proof.
  revert m. induction l as [| x l IH]; intros m; simpl; [discriminate |].
  destruct x as [| q], m as [| p]; simpl; try congruence. apply IH.
Qed.

(** ** The first loop of [get_market_pulse] *)

Lemma add_exchanges_observations (all_data : dict (list ticker))
  (symbol_map : dict aggregated) :
  add_exchanges all_data symbol_map =
  add_observations (observations all_data) symbol_map.
Proof.
  revert symbol_map.
  induction all_data as [| [exchange_name tickers] rest IH];
    intros symbol_map; simpl; [reflexivity |].
  revert symbol_map. induction tickers as [| t tickers IHt];
    intros symbol_map; simpl.
  - apply IH.
  - destruct (add_ticker exchange_name t symbol_map); simpl;
      [apply IHt | reflexivity].
Qed.

Lemma add_observations_app (obs obs' : list (string * ticker))
  (symbol_map : dict aggregated) :
  add_observations (obs ++ obs') symbol_map =
  (m <- add_observations obs symbol_map ;; add_observations obs' m).
Proof.
  revert symbol_map. induction obs as [| o obs IH]; intros symbol_map; simpl;
    [reflexivity |].
  destruct (add_ticker (fst o) (snd o) symbol_map); simpl;
    [apply IH | reflexivity].
Qed.

Lemma bucket_app (s : string) (obs obs' : list (string * ticker)) :
  bucket s (obs ++ obs') = bucket s obs ++ bucket s obs'.
Proof. apply filter_app. Qed.

Lemma represents_nil : represents [] [].
Proof.
  split; [constructor | intros s; reflexivity].
Qed.

(** The record of the ticker's symbol is bound when its volume is added. *)
Lemma add_ticker_bound (t : ticker) (symbol_map : dict aggregated) :
  exists data,
    lookup (symbol t)
      (if mem (symbol t) symbol_map then symbol_map
       else setitem (symbol t) (fresh (symbol t)) symbol_map) = Some data.
Proof.
  unfold mem. destruct (lookup (symbol t) symbol_map) as [d |] eqn:E.
  - eauto.
  - rewrite lookup_setitem_eq. eauto.
Qed.

Lemma add_ticker_raises (exchange_name : string) (t : ticker)
  (symbol_map : dict aggregated) (e : exn) :
  add_ticker exchange_name t symbol_map = Raise e -> e = TypeError.
Proof.
  unfold add_ticker. destruct (add_ticker_bound t symbol_map) as [data ->].
  destruct (total_volume_24h data), (volume_24h t); simpl; congruence.
Qed.

Lemma add_ticker_represents (exchange_name : string) (t : ticker)
  (obs : list (string * ticker)) (symbol_map symbol_map' : dict aggregated) :
  represents obs symbol_map ->
  add_ticker exchange_name t symbol_map = Ok symbol_map' ->
  represents (obs ++ [(exchange_name, t)]) symbol_map'.
Proof.
  intros [ND R] H. unfold add_ticker in H.
  set (m1 := if mem (symbol t) symbol_map then symbol_map
             else setitem (symbol t) (fresh (symbol t)) symbol_map) in H.
  assert (ND1 : NoDup (keys m1)).
  { subst m1. destruct (mem (symbol t) symbol_map);
      [exact ND | now apply NoDup_keys_setitem]. }
  assert (O1 : forall s, s <> symbol t -> lookup s m1 = lookup s symbol_map).
  { intros s N. subst m1. destruct (mem (symbol t) symbol_map);
      [reflexivity |]. apply lookup_setitem_neq. congruence. }
  assert (S1 : exists data, lookup (symbol t) m1 = Some data /\
                 bucket_state (symbol t) (bucket (symbol t) obs) data).
  { subst m1. unfold mem. specialize (R (symbol t)).
    destruct (lookup (symbol t) symbol_map) as [d |] eqn:E.
    - exists d. rewrite E. tauto.
    - exists (fresh (symbol t)). rewrite lookup_setitem_eq, R.
      repeat split. }
  destruct S1 as (data & L1 & B1). rewrite L1 in H.
  apply bind_ok in H as (tot & Ht & H). injection H as <-.
  split; [now apply NoDup_keys_setitem |].
  intros s. rewrite bucket_app. simpl.
  destruct (String.eqb_spec (symbol t) s) as [<- | N].
  - rewrite lookup_setitem_eq. split.
    + intros E. apply app_eq_nil in E as [_ E]. discriminate.
    + destruct B1 as (B1 & B2 & B3 & B4 & B5 & B6).
      unfold bucket_state. simpl. repeat split; auto.
      * unfold contributions_of in *. rewrite map_app, B2. reflexivity.
      * rewrite map_app. unfold py_sum in *. rewrite sum_from_app, B6.
        simpl. now rewrite Ht.
  - rewrite lookup_setitem_neq by exact N. rewrite app_nil_r.
    rewrite O1 by congruence. apply R.
Qed.

Lemma add_ticker_progress (exchange_name : string) (t : ticker)
  (obs : list (string * ticker)) (symbol_map : dict aggregated) :
  represents obs symbol_map ->
  is_number (volume_24h t) = true ->
  exists symbol_map', add_ticker exchange_name t symbol_map = Ok symbol_map'.
Proof.
  intros [ND R] Hv. unfold add_ticker, mem. specialize (R (symbol t)).
  destruct (lookup (symbol t) symbol_map) as [d |] eqn:E.
  - rewrite E. destruct R as (_ & _ & _ & _ & _ & _ & S).
    apply sum_from_is_number in S; [| reflexivity].
    destruct (total_volume_24h d); [discriminate |].
    destruct (volume_24h t); [discriminate |]. simpl. eauto.
  - rewrite lookup_setitem_eq. simpl.
    destruct (volume_24h t); [discriminate |]. simpl. eauto.
Qed.

Lemma add_observations_represents (more obs : list (string * ticker))
  (symbol_map symbol_map' : dict aggregated) :
  represents obs symbol_map ->
  add_observations more symbol_map = Ok symbol_map' ->
  represents (obs ++ more) symbol_map'.
Proof.
  revert obs symbol_map. induction more as [| [ex t] more IH];
    intros obs symbol_map R H; simpl in H.
  - injection H as <-. now rewrite app_nil_r.
  - apply bind_ok in H as (m & Hm & H).
    change (obs ++ (ex, t) :: more) with (obs ++ [(ex, t)] ++ more).
    rewrite app_assoc. apply (IH _ m); [| exact H].
    now apply add_ticker_represents with symbol_map.
Qed.

Lemma add_observations_progress (more obs : list (string * ticker))
  (symbol_map : dict aggregated) :
  represents obs symbol_map ->
  forallb (fun o => is_number (volume_24h (snd o))) more = true ->
  exists symbol_map', add_observations more symbol_map = Ok symbol_map'.
Proof.
  revert obs symbol_map. induction more as [| [ex t] more IH];
    intros obs symbol_map R H; simpl in *.
  - eauto.
  - apply andb_prop in H as [Ht Hm].
    destruct (add_ticker_progress ex t R Ht) as [m E]. rewrite E. simpl.
    apply (IH (obs ++ [(ex, t)])); [| exact Hm].
    now apply add_ticker_represents with symbol_map.
Qed.

Lemma add_observations_raises (obs : list (string * ticker))
  (symbol_map : dict aggregated) (e : exn) :
  add_observations obs symbol_map = Raise e -> e = TypeError.
Proof.
  revert symbol_map. induction obs as [| o obs IH]; intros symbol_map; simpl;
    [discriminate |].
  intros H. apply bind_raise in H as [H | (m & _ & H)].
  - now apply add_ticker_raises in H.
  - now apply IH in H.
Qed.

(** ** The loop that calculates the averages *)

Lemma py_div_len_raises (a : value) (n : nat) (e : exn) :
  py_div_len a (S n) = Raise e -> e = TypeError.
Proof. destruct a; simpl; congruence. Qed.

Lemma calculate_raises (data : aggregated) (e : exn) :
  calculate data = Raise e -> e = TypeError.
Proof.
  unfold calculate. destruct (agg_exchanges data) as [| c r]; [discriminate |].
  cbn [map List.length]. unfold py_sum. intros H.
  apply bind_raise in H as [H | (sp & _ & H)];
    [now apply sum_from_raises in H |].
  apply bind_raise in H as [H | (ap & _ & H)];
    [now apply py_div_len_raises in H |].
  apply bind_raise in H as [H | (sc & _ & H)];
    [now apply sum_from_raises in H |].
  apply bind_raise in H as [H | (ac & _ & H)];
    [now apply py_div_len_raises in H |].
  apply bind_raise in H as [H | (mc & _ & H)]; [| discriminate].
  now apply max_from_raises in H.
Qed.

Lemma calculate_keeps (data data' : aggregated) :
  calculate data = Ok data' ->
  agg_symbol data' = agg_symbol data /\
  agg_exchanges data' = agg_exchanges data /\
  total_volume_24h data' = total_volume_24h data.
Proof.
  unfold calculate. destruct (agg_exchanges data) as [| c r] eqn:E.
  - intros [= <-]. now rewrite E.
  - intros H.
    apply bind_ok in H as (sp & _ & H). apply bind_ok in H as (ap & _ & H).
    apply bind_ok in H as (sc & _ & H). apply bind_ok in H as (ac & _ & H).
    apply bind_ok in H as (mc & _ & H). injection H as <-. simpl. auto.
Qed.

Lemma forallb_map {A B : Type} (f : A -> B) (p : B -> bool) (l : list A) :
  forallb p (map f l) = forallb (fun x => p (f x)) l.
Proof. induction l as [| x l IH]; simpl; [reflexivity | now rewrite IH]. Qed.

Lemma forallb_weaken {A : Type} (p q : A -> bool) (l : list A) :
  (forall x, p x = true -> q x = true) ->
  forallb p l = true -> forallb q l = true.
Proof.
  intros W. rewrite !forallb_forall. auto.
Qed.

Lemma numeric_ticker_fields (t : ticker) :
  numeric_ticker t = true ->
  is_number (price t) = true /\ is_number (volume_24h t) = true /\
  is_number (change_24h t) = true.
Proof.
  unfold numeric_ticker. intros H.
  apply andb_prop in H as [H Hc]. apply andb_prop in H as [Hp Hv]. auto.
Qed.

Lemma calculate_summary (s : string) (obs : list (string * ticker))
  (data : aggregated) :
  obs <> [] ->
  bucket_state s obs data ->
  forallb (fun o => numeric_ticker (snd o)) obs = true ->
  calculate data = Ok (summary s obs).
Proof.
  intros NE (B1 & B2 & _ & _ & _ & B6) Num.
  assert (Np : forallb is_number (map (fun o => price (snd o)) obs) = true).
  { rewrite forallb_map. revert Num. apply forallb_weaken.
    intros o H. now apply numeric_ticker_fields in H. }
  assert (Nv : forallb is_number (map (fun o => volume_24h (snd o)) obs)
               = true).
  { rewrite forallb_map. revert Num. apply forallb_weaken.
    intros o H. now apply numeric_ticker_fields in H. }
  assert (Nc : forallb is_number (map (fun o => change_24h (snd o)) obs)
               = true).
  { rewrite forallb_map. revert Num. apply forallb_weaken.
    intros o H. now apply numeric_ticker_fields in H. }
  rewrite (py_sum_numbers _ Nv) in B6. injection B6 as B6.
  unfold calculate. rewrite B2.
  destruct obs as [| o obs']; [congruence |].
  set (obs := o :: obs') in *.
  change (contributions_of obs) with
    (contribution_of (fst o) (snd o) :: contributions_of obs') at 1.
  cbv zeta.
  assert (Ep : map entry_price (contributions_of obs)
               = map (fun o => price (snd o)) obs).
  { unfold contributions_of. rewrite map_map. reflexivity. }
  assert (Ec : map entry_change_24h (contributions_of obs)
               = map (fun o => change_24h (snd o)) obs).
  { unfold contributions_of. rewrite map_map. reflexivity. }
  rewrite Ep, Ec, (py_sum_numbers _ Np), (py_sum_numbers _ Nc).
  rewrite (py_max_numbers (l := map (fun o => change_24h (snd o)) obs))
    by (discriminate || exact Nc).
  rewrite !map_map, !length_map. subst obs. cbn [List.length bind py_div_len].
  unfold summary. f_equal. f_equal.
  - exact B1.
  - unfold mean, prices_of. now rewrite length_map.
  - rewrite <- B6. unfold volumes_of. now rewrite map_map.
  - unfold mean, changes_of. now rewrite length_map.
Qed.

Lemma calculate_all_in (symbol_map symbol_map' : dict aggregated)
  (s : string) (data' : aggregated) :
  calculate_all symbol_map = Ok symbol_map' ->
  In (s, data') symbol_map' ->
  exists data, In (s, data) symbol_map /\ calculate data = Ok data'.
Proof.
  revert symbol_map'. induction symbol_map as [| [k d] rest IH];
    intros symbol_map' H I; simpl in H.
  - injection H as <-. destruct I.
  - apply bind_ok in H as (d' & Hd & H). apply bind_ok in H as (r' & Hr & H).
    injection H as <-. destruct I as [[= -> ->] | I].
    + exists d. split; [now left | exact Hd].
    + destruct (IH _ Hr I) as (data & Hin & Hc). exists data.
      split; [now right | exact Hc].
Qed.

Lemma calculate_all_keys (symbol_map symbol_map' : dict aggregated) :
  calculate_all symbol_map = Ok symbol_map' ->
  keys symbol_map' = keys symbol_map.
Proof.
  revert symbol_map'. induction symbol_map as [| [k d] rest IH];
    intros symbol_map' H; simpl in H.
  - now injection H as <-.
  - apply bind_ok in H as (d' & Hd & H). apply bind_ok in H as (r' & Hr & H).
    injection H as <-. simpl. f_equal. now apply IH.
Qed.

Lemma calculate_all_raises (symbol_map : dict aggregated) (e : exn) :
  calculate_all symbol_map = Raise e -> e = TypeError.
Proof.
  induction symbol_map as [| [k d] rest IH]; simpl; [discriminate |].
  intros H. apply bind_raise in H as [H | (d' & _ & H)];
    [now apply calculate_raises in H |].
  apply bind_raise in H as [H | (r' & _ & H)]; [auto | discriminate].
Qed.

Lemma calculate_all_ok (g : string -> aggregated)
  (symbol_map : dict aggregated) :
  (forall s data, In (s, data) symbol_map -> calculate data = Ok (g s)) ->
  calculate_all symbol_map = Ok (map (fun kv => (fst kv, g (fst kv))) symbol_map).
Proof.
  induction symbol_map as [| [k d] rest IH]; intros H; simpl; [reflexivity |].
  rewrite (H k d) by now left. simpl.
  rewrite IH by (intros s data I; apply H; now right). reflexivity.
Qed.

Lemma lookup_map_keys {V W : Type} (g : string -> W) (s : string)
  (d : dict V) :
  lookup s (map (fun kv => (fst kv, g (fst kv))) d) =
  match lookup s d with Some _ => Some (g s) | None => None end.
Proof.
  induction d as [| [k v] r IH]; simpl; [reflexivity |].
  destruct (String.eqb_spec s k) as [-> | N]; [reflexivity | exact IH].
Qed.

(** ** Sorting and slicing *)

Section SortingFacts.
Variable A : Type.
Variable key : A -> float.

Lemma insert_desc_permutation (x : A) (l : list A) :
  Permutation (insert_desc key x l) (x :: l).
Proof.
  induction l as [| y r IH]; simpl; [apply Permutation_refl |].
  destruct (key y <=? key x)%float; [apply Permutation_refl |].
  apply perm_trans with (y :: x :: r); [now apply perm_skip | apply perm_swap].
Qed.

Lemma sorted_desc_permutation (l : list A) : Permutation (sorted_desc key l) l.
Proof.
  induction l as [| x r IH]; simpl; [constructor |].
  apply perm_trans with (x :: sorted_desc key r);
    [apply insert_desc_permutation | now apply perm_skip].
Qed.

Lemma insert_desc_sorted (x : A) (l : list A) :
  keys_not_nan key (x :: l) ->
  StronglySorted (descending key) l ->
  StronglySorted (descending key) (insert_desc key x l).
Proof.
  induction l as [| y r IH]; intros N S; simpl.
  - constructor; [constructor | constructor].
  - inversion S as [| ? ? Sr Fr]; subst.
    inversion N as [| ? ? Nx Nl]; subst.
    inversion Nl as [| ? ? Ny Nr]; subst.
    destruct (key y <=? key x)%float eqn:E.
    + constructor; [exact S |].
      constructor; [exact E |].
      revert Fr. apply Forall_impl. intros z Hz. unfold descending in *.
      now apply fleb_trans with (key y).
    + constructor; [apply IH; [now constructor | exact Sr] |].
      apply (Permutation_Forall (Permutation_sym (insert_desc_permutation x r))).
      constructor; [| exact Fr].
      unfold descending. apply fltb_leb. now apply fleb_total.
Qed.

Lemma sorted_desc_sorted (l : list A) :
  keys_not_nan key l -> StronglySorted (descending key) (sorted_desc key l).
Proof.
  induction l as [| x r IH]; intros N; simpl; [constructor |].
  inversion N as [| ? ? Nx Nr]; subst.
  apply insert_desc_sorted; [| now apply IH].
  constructor; [exact Nx |].
  apply (Permutation_Forall (Permutation_sym (sorted_desc_permutation r))).
  exact Nr.
Qed.

(** Stability: the elements with a given key keep their order. *)
Lemma insert_desc_stable (v : float) (x : A) (l : list A) :
  filter (fun a => (key a =? v)%float) (insert_desc key x l) =
  filter (fun a => (key a =? v)%float) (x :: l).
Proof.
  induction l as [| y r IH]; [reflexivity |].
  cbn [insert_desc].
  destruct (key y <=? key x)%float eqn:E; [reflexivity |].
  cbn [filter]. rewrite IH. cbn [filter].
  destruct (key x =? v)%float eqn:Ex; [| reflexivity].
  destruct (key y =? v)%float eqn:Ey; [| reflexivity].
  apply feqb_leb in Ex, Ey.
  rewrite (fleb_trans (key y) v (key x)) in E by tauto. discriminate.
Qed.

Lemma sorted_desc_stable (v : float) (l : list A) :
  filter (fun a => (key a =? v)%float) (sorted_desc key l) =
  filter (fun a => (key a =? v)%float) l.
Proof.
  induction l as [| x r IH]; [reflexivity |]. cbn [sorted_desc].
  rewrite insert_desc_stable.
  cbn [filter]. now rewrite IH.
Qed.

Lemma sorted_desc_length (l : list A) :
  List.length (sorted_desc key l) = List.length l.
Proof. apply Permutation_length, sorted_desc_permutation. Qed.

End SortingFacts.

Lemma no_nan_keys {A : Type} (key : A -> float) (l : list A) :
  no_nan (map key l) = true <-> keys_not_nan key l.
Proof.
  unfold no_nan, keys_not_nan. rewrite forallb_forall, Forall_forall. split.
  - intros H a I. specialize (H (key a) (in_map key l a I)).
    now destruct (PrimFloat.is_nan (key a)).
  - intros H x I. apply in_map_iff in I as (a & <- & I).
    now rewrite (H a I).
Qed.

Lemma volumes_not_nan_keys (symbol_map : dict aggregated) :
  volumes_not_nan symbol_map = true ->
  keys_not_nan total_volume (values symbol_map).
Proof. apply no_nan_keys. Qed.

Lemma firstn_incl {A : Type} (n : nat) (l : list A) (x : A) :
  In x (firstn n l) -> In x l.
Proof.
  intros I. rewrite <- (firstn_skipn n l). apply in_or_app. now left.
Qed.

Lemma firstn_strongly_sorted {A : Type} (R : A -> A -> Prop) (n : nat)
  (l : list A) :
  StronglySorted R l -> StronglySorted R (firstn n l).
Proof.
  revert n. induction l as [| x r IH]; intros n S.
  - rewrite firstn_nil. constructor.
  - destruct n as [| n]; simpl; [constructor |].
    inversion S as [| ? ? Sr Fr]; subst. constructor; [now apply IH |].
    rewrite Forall_forall in *. intros y I. apply Fr.
    now apply firstn_incl in I.
Qed.

Lemma slice_to_firstn {A : Type} (n : Z) (l : list A) :
  exists k, slice_to n l = firstn k l.
Proof. unfold slice_to. destruct (n <? 0)%Z; eauto. Qed.

Lemma slice_to_incl {A : Type} (n : Z) (l : list A) (x : A) :
  In x (slice_to n l) -> In x l.
Proof.
  destruct (slice_to_firstn n l) as [k ->]. apply firstn_incl.
Qed.

Lemma slice_to_nil {A : Type} (n : Z) : slice_to n (@nil A) = [].
Proof. destruct (slice_to_firstn n (@nil A)) as [k ->]. apply firstn_nil. Qed.

Lemma slice_to_zero {A : Type} (l : list A) : slice_to 0 l = [].
Proof. reflexivity. Qed.

Lemma slice_to_length {A : Type} (n : Z) (l : list A) :
  (0 <= n)%Z ->
  List.length (slice_to n l) = Nat.min (Z.to_nat n) (List.length l).
Proof.
  intros H. unfold slice_to.
  destruct (Z.ltb_spec n 0); [lia |]. apply length_firstn.
Qed.

Lemma slice_to_negative {A : Type} (n : Z) (l : list A) :
  (n < 0)%Z ->
  slice_to n l = firstn (List.length l - Z.to_nat (- n)) l.
Proof.
  intros H. unfold slice_to.
  destruct (Z.ltb_spec n 0); [| lia]. f_equal. lia.
Qed.

Lemma filter_firstn_prefix {A : Type} (p : A -> bool) (n : nat) (l : list A) :
  exists rest, filter p l = filter p (firstn n l) ++ rest.
Proof.
  exists (filter p (skipn n l)).
  now rewrite <- filter_app, firstn_skipn.
Qed.

Lemma Permutation_filter {A : Type} (p : A -> bool) (l l' : list A) :
  Permutation l l' -> Permutation (filter p l) (filter p l').
Proof.
  induction 1 as [| x l l' _ IH | x y l | l l' l'' _ IH1 _ IH2]; simpl.
  - constructor.
  - destruct (p x); [now apply perm_skip | exact IH].
  - destruct (p x), (p y); try apply Permutation_refl. apply perm_swap.
  - now apply perm_trans with (filter p l').
Qed.

(** ** The symbol map *)

Lemma first_loop_represents (all_data : dict (list ticker))
  (symbol_map : dict aggregated) :
  add_exchanges all_data [] = Ok symbol_map ->
  represents (observations all_data) symbol_map.
Proof.
  rewrite add_exchanges_observations. intros H.
  apply (add_observations_represents _ represents_nil H).
Qed.

Lemma numeric_data_volumes (all_data : dict (list ticker)) :
  numeric_data all_data = true ->
  forallb (fun o => is_number (volume_24h (snd o))) (observations all_data)
  = true.
Proof.
  apply forallb_weaken. intros o H. now apply numeric_ticker_fields in H.
Qed.

Lemma numeric_bucket (s : string) (obs : list (string * ticker)) :
  forallb (fun o => numeric_ticker (snd o)) obs = true ->
  forallb (fun o => numeric_ticker (snd o)) (bucket s obs) = true.
Proof.
  rewrite !forallb_forall. intros H o I. apply H.
  unfold bucket in I. now apply filter_In in I.
Qed.

(** The symbol map of a cycle whose observations are all numbers: one
    record per symbol observed, which is the summary of the bucket. *)
Lemma aggregate_numeric (all_data : dict (list ticker)) :
  numeric_data all_data = true ->
  exists symbol_map,
    aggregate all_data = Ok symbol_map /\
    NoDup (keys symbol_map) /\
    forall s,
      lookup s symbol_map =
      match bucket s (observations all_data) with
      | [] => None
      | _ :: _ => Some (summary s (bucket s (observations all_data)))
      end.
Proof.
  intros Num. unfold aggregate.
  destruct (add_observations_progress (observations all_data) represents_nil
              (numeric_data_volumes _ Num)) as [m0 H0].
  rewrite add_exchanges_observations, H0. simpl.
  pose proof (add_observations_represents _ represents_nil H0) as [ND R].
  simpl in R.
  set (g := fun s => summary s (bucket s (observations all_data))).
  assert (C : forall s data, In (s, data) m0 -> calculate data = Ok (g s)).
  { intros s data I. apply (in_lookup _ _ _ ND) in I.
    specialize (R s). rewrite I in R. destruct R as [NE B].
    apply calculate_summary; [exact NE | exact B |].
    now apply numeric_bucket. }
  rewrite (calculate_all_ok g m0 C).
  eexists. split; [reflexivity |]. split.
  - unfold keys in *. rewrite map_map. simpl. exact ND.
  - intros s. rewrite lookup_map_keys. specialize (R s).
    destruct (lookup s m0) as [d |].
    + destruct R as [NE _].
      subst g. cbv beta.
      destruct (bucket s (observations all_data)); [congruence | reflexivity].
    + now rewrite R.
Qed.

(** Whatever the values collected, a record of the symbol map lists the
    observations of its symbol, and there is at least one. *)
Lemma aggregate_contributions (all_data : dict (list ticker))
  (symbol_map : dict aggregated) (s : string) (d : aggregated) :
  aggregate all_data = Ok symbol_map ->
  In (s, d) symbol_map ->
  agg_symbol d = s /\
  bucket s (observations all_data) <> [] /\
  agg_exchanges d = contributions_of (bucket s (observations all_data)).
Proof.
  unfold aggregate. intros H I.
  apply bind_ok in H as (m0 & H0 & H).
  apply first_loop_represents in H0 as [ND R].
  destruct (@calculate_all_in _ _ _ _ H I) as (d0 & I0 & C).
  apply (in_lookup _ _ _ ND) in I0. specialize (R s). rewrite I0 in R.
  destruct R as (NE & B1 & B2 & _).
  apply calculate_keeps in C as (K1 & K2 & _).
  rewrite K1, K2. auto.
Qed.

Lemma aggregate_raises (all_data : dict (list ticker)) (e : exn) :
  aggregate all_data = Raise e -> e = TypeError.
Proof.
  unfold aggregate. intros H. apply bind_raise in H as [H | (m & _ & H)].
  - rewrite add_exchanges_observations in H.
    now apply add_observations_raises in H.
  - now apply calculate_all_raises in H.
Qed.

(** The sort key of the ranking is a number. *)
Lemma aggregate_total_is_number (all_data : dict (list ticker))
  (symbol_map : dict aggregated) (s : string) (d : aggregated) :
  aggregate all_data = Ok symbol_map ->
  In (s, d) symbol_map ->
  is_number (total_volume_24h d) = true.
Proof.
  unfold aggregate. intros H I.
  apply bind_ok in H as (m0 & H0 & H).
  apply first_loop_represents in H0 as [ND R].
  destruct (@calculate_all_in _ _ _ _ H I) as (d0 & I0 & C).
  apply (in_lookup _ _ _ ND) in I0. specialize (R s). rewrite I0 in R.
  destruct R as (_ & _ & _ & _ & _ & _ & S).
  apply calculate_keeps in C as (_ & _ & ->).
  now apply sum_from_is_number in S.
Qed.

Lemma rank_incl (symbol_map : dict aggregated) (n : Z) (d : aggregated) :
  In d (rank symbol_map n) -> exists s, In (s, d) symbol_map.
Proof.
  unfold rank. intros I. apply slice_to_incl in I.
  apply (Permutation_in _ (sorted_desc_permutation total_volume _)) in I.
  unfold values in I. apply in_map_iff in I as ([s d'] & E & I).
  simpl in E. subst. eauto.
Qed.

Lemma contributions_of_nonempty (obs : list (string * ticker)) :
  obs <> [] -> contributions_of obs <> [].
Proof. destruct obs; [congruence | discriminate]. Qed.

Lemma bucket_permutation (s : string) (obs obs' : list (string * ticker)) :
  Permutation obs obs' -> Permutation (bucket s obs) (bucket s obs').
Proof. apply Permutation_filter. Qed.

Lemma numeric_data_permutation (all_data all_data' : dict (list ticker)) :
  Permutation (observations all_data) (observations all_data') ->
  numeric_data all_data = true -> numeric_data all_data' = true.
Proof.
  unfold numeric_data. rewrite !forallb_forall. intros P H o I.
  apply H. now apply (Permutation_in _ (Permutation_sym P)).
Qed.

Lemma no_nan_permutation (l l' : list float) :
  Permutation l l' -> no_nan l = true -> no_nan l' = true.
Proof.
  unfold no_nan. rewrite !forallb_forall. intros P H x I.
  apply H. now apply (Permutation_in _ (Permutation_sym P)).
Qed.

(** * Properties of the aggregation *)





(** C2, against the claim as stated: the aggregates are not invariant
    under a permutation of the observations.  The same three exchanges
    report BTC/USDT with the volumes [2^53], 1 and 1; listed as A, B, C
    the total volume of the record is [2^53], listed as B, C, A it is
    [2^53 + 2]. *)
Lemma aggregates_depend_on_order :
  Permutation
    (observations (collect_all_exchanges noon large_first None 50))
    (observations (collect_all_exchanges noon large_last None 50)) /\
  numeric_data (collect_all_exchanges noon large_first None 50) = true /\
  exists d d',
    get_market_pulse noon large_first 50 = Ok [d] /\
    get_market_pulse noon large_last 50 = Ok [d'] /\
    agg_symbol d = agg_symbol d' /\
    total_volume_24h d = num two_to_53 /\
    total_volume_24h d' = num (two_to_53 + 2) /\
    total_volume_24h d <> total_volume_24h d' /\
    aggregates d <> aggregates d'.
Proof.
  split; [| split; [vm_compute; reflexivity |]].
  - vm_compute. apply Permutation_cons_append with (l := [_; _]).
  - do 2 eexists. split; [vm_compute; reflexivity |].
    split; [vm_compute; reflexivity |].
    assert (D : num two_to_53 <> num (two_to_53 + 2)).
    { intros E. apply (f_equal number) in E. revert E.
      apply float_neq. vm_compute. discriminate. }
    repeat split; try exact D.
    unfold aggregates. intros E. apply D.
    now apply (f_equal (fun a => snd (fst (fst a)))) in E.
Qed.

(** C2, as the code has it.  The order in which the tasks complete does
    not reach the aggregation: the outcomes are taken in the order of
    submission, and the aggregation is a function of the mapping.  When
    two cycles collect the same observations in a different order, both
    aggregations succeed and the same symbols have a record; the record of
    a symbol lists the same contributions, up to their order, and its max
    change is the same number when no change of the symbol is NaN; and
    when the observations of a symbol come in the same order in both
    cycles, however they are interleaved with those of other symbols, the
    two records of that symbol are equal, with all four aggregates.  The
    sums behind the total volume and the averages are rounded at every
    addition, and may differ when the order of the observations of the
    symbol differs. *)
Theorem aggregates_reordered
  (all_data all_data' : dict (list ticker)) :
  numeric_data all_data = true ->
  Permutation (observations all_data) (observations all_data') ->
  exists symbol_map symbol_map',
    aggregate all_data = Ok symbol_map /\
    aggregate all_data' = Ok symbol_map' /\
    (forall s,
       match lookup s symbol_map, lookup s symbol_map' with
       | Some d, Some d' =>
           Permutation (agg_exchanges d) (agg_exchanges d') /\
           (no_nan (changes_of (bucket s (observations all_data))) = true ->
            (number (max_change_24h d) =? number (max_change_24h d'))%float
            = true)
       | None, None => True
       | _, _ => False
       end) /\
    (forall s,
       bucket s (observations all_data) = bucket s (observations all_data') ->
       lookup s symbol_map = lookup s symbol_map').
Proof.
  intros Num P.
  pose proof (numeric_data_permutation _ _ P Num) as Num'.
  destruct (aggregate_numeric _ Num) as (m & Hm & _ & L).
  destruct (aggregate_numeric _ Num') as (m' & Hm' & _ & L').
  exists m, m'. split; [exact Hm |]. split; [exact Hm' |]. split.
  - intros s. rewrite L, L'.
    pose proof (bucket_permutation s P) as Ps.
    destruct (bucket s (observations all_data)) as [| o r] eqn:E.
    + apply Permutation_nil in Ps. now rewrite Ps.
    + destruct (bucket s (observations all_data')) as [| o' r'] eqn:E'.
      * apply Permutation_sym, Permutation_nil in Ps. discriminate.
      * cbn [summary agg_exchanges max_change_24h number]. split.
        -- unfold contributions_of. now apply Permutation_map.
        -- intros NN.
           assert (Pc : Permutation (changes_of (o :: r))
                          (changes_of (o' :: r')))
             by (unfold changes_of; now apply Permutation_map).
           apply is_maximum_unique
             with (l := changes_of (o :: r)) (l' := changes_of (o' :: r')).
           ++ intros x. split; apply Permutation_in;
                [exact Pc | exact (Permutation_sym Pc)].
           ++ apply maximum_is_maximum; [discriminate | exact NN].
           ++ apply maximum_is_maximum; [discriminate |].
              exact (no_nan_permutation Pc NN).
  - intros s E. rewrite L, L', E. reflexivity.
Qed.

Lemma aggregates_reordered_witness :
  let all_data := collect_all_exchanges noon large_first None 50 in
  let all_data' := collect_all_exchanges noon large_last None 50 in
  exists symbol_map symbol_map',
    aggregate all_data = Ok symbol_map /\
    aggregate all_data' = Ok symbol_map' /\
    (forall s,
       match lookup s symbol_map, lookup s symbol_map' with
       | Some d, Some d' =>
           Permutation (agg_exchanges d) (agg_exchanges d') /\
           (no_nan (changes_of (bucket s (observations all_data))) = true ->
            (number (max_change_24h d) =? number (max_change_24h d'))%float
            = true)
       | None, None => True
       | _, _ => False
       end) /\
    (forall s,
       bucket s (observations all_data) = bucket s (observations all_data') ->
       lookup s symbol_map = lookup s symbol_map').
Proof.
  apply aggregates_reordered.
  - vm_compute. reflexivity.
  - vm_compute. apply Permutation_cons_append with (l := [_; _]).
Defined.

(** The symbols of the symbol map are the symbols observed, each once. *)
Lemma aggregate_keys (all_data : dict (list ticker))
  (symbol_map : dict aggregated) :
  aggregate all_data = Ok symbol_map ->
  NoDup (keys symbol_map) /\
  forall s,
    In s (keys symbol_map) <->
    In s (map (fun o => symbol (snd o)) (observations all_data)).
Proof.
  unfold aggregate. intros H. apply bind_ok in H as (m0 & H0 & H).
  apply first_loop_represents in H0 as [ND R].
  rewrite (calculate_all_keys _ H). split; [exact ND |].
  intros s. specialize (R s). split.
  - intros I. destruct (lookup s m0) as [d |] eqn:E.
    + destruct R as [NE _].
      destruct (bucket s (observations all_data)) as [| o r] eqn:B;
        [congruence |].
      assert (Io : In o (bucket s (observations all_data)))
        by (rewrite B; now left).
      unfold bucket in Io. apply filter_In in Io as [Io Eo].
      apply String.eqb_eq in Eo. subst s.
      apply in_map_iff. eauto.
    + apply lookup_none_keys in E. contradiction.
  - intros I. apply in_map_iff in I as (o & Eo & I).
    destruct (lookup s m0) as [d |] eqn:E.
    + apply lookup_in in E.
      change s with (fst (s, d)). now apply in_map.
    + exfalso. assert (Io : In o (bucket s (observations all_data))).
      { unfold bucket. apply filter_In. split; [exact I |].
        now apply String.eqb_eq. }
      rewrite R in Io. destruct Io.
Qed.

(** C6.  Every record of the pulse holds at least one contribution: the
    observations of its symbol, of which there is at least one; the same
    holds of every record of the symbol map of any collected data.
    Neither the aggregation nor the pulse ever ends with a division by
    zero. *)
Theorem no_empty_bucket (utcnow : string) (self : MarketCollector) (N : Z)
  (all_data : dict (list ticker)) :
  (forall symbol_map s d,
     aggregate all_data = Ok symbol_map ->
     In (s, d) symbol_map ->
     agg_exchanges d <> [] /\
     agg_exchanges d = contributions_of (bucket s (observations all_data))) /\
  aggregate all_data <> Raise ZeroDivisionError /\
  (forall pulse d,
     get_market_pulse utcnow self N = Ok pulse ->
     In d pulse ->
     agg_exchanges d <> []) /\
  get_market_pulse utcnow self N <> Raise ZeroDivisionError.
Proof.
  assert (G : forall data symbol_map s d,
             aggregate data = Ok symbol_map ->
             In (s, d) symbol_map ->
             agg_exchanges d <> [] /\
             agg_exchanges d = contributions_of (bucket s (observations data))).
  { intros data m s d H I.
    destruct (aggregate_contributions _ _ _ H I) as (_ & NE & E).
    split; [| exact E]. rewrite E. now apply contributions_of_nonempty. }
  repeat split.
  - eapply G; eassumption.
  - eapply G; eassumption.
  - intros H. apply aggregate_raises in H. discriminate.
  - intros pulse d H I. unfold get_market_pulse in H.
    apply bind_ok in H as (m & Hm & H). injection H as <-.
    apply rank_incl in I as [s I]. now apply (G _ _ _ _ Hm I).
  - unfold get_market_pulse. intros H.
    apply bind_raise in H as [H | (m & _ & H)]; [| discriminate].
    apply aggregate_raises in H. discriminate.
Qed.

Lemma no_empty_bucket_witness :
  exists pulse,
    get_market_pulse noon both_report 50 = Ok pulse /\
    Forall (fun d => agg_exchanges d <> []) pulse.
Proof.
  eexists. split; [vm_compute; reflexivity |].
  apply Forall_forall. intros d I.
  refine (proj1 (proj2 (proj2 (no_empty_bucket noon both_report 50 []))) _ d _ I).
  vm_compute. reflexivity.
Defined.

(** * Properties of the collection *)

(** ** The loop that processes the outcomes *)

Lemma mem_setitem {V : Type} (n k : string) (v : V) (d : dict V) :
  mem n (setitem k v d) = mem n d || String.eqb k n.
Proof.
  unfold mem. destruct (String.eqb_spec k n) as [<- | N].
  - rewrite lookup_setitem_eq. now rewrite orb_true_r.
  - rewrite (lookup_setitem_neq _ _ N). now rewrite orb_false_r.
Qed.

Lemma getitem_setitem (n k : string) (l : list ticker)
  (results : dict (list ticker)) :
  getitem n (setitem k l results) =
  if String.eqb k n then l else getitem n results.
Proof.
  unfold getitem. destruct (String.eqb_spec k n) as [<- | N].
  - now rewrite lookup_setitem_eq.
  - now rewrite (lookup_setitem_neq _ _ N).
Qed.

Lemma getitem_bind_key (n k : string) (results : dict (list ticker)) :
  getitem n (bind_key k results) = getitem n results.
Proof.
  unfold bind_key. destruct (mem k results) eqn:M; [reflexivity |].
  rewrite getitem_setitem. destruct (String.eqb_spec k n) as [<- | N];
    [| reflexivity].
  unfold getitem, mem in *. now destruct (lookup k results).
Qed.

Lemma mem_bind_key (n k : string) (results : dict (list ticker)) :
  mem n (bind_key k results) = mem n results || String.eqb k n.
Proof.
  unfold bind_key. destruct (mem k results) eqn:M; [| apply mem_setitem].
  destruct (String.eqb_spec k n) as [<- | N].
  - now rewrite M.
  - now rewrite orb_false_r.
Qed.

Lemma NoDup_keys_bind_key (k : string) (results : dict (list ticker)) :
  NoDup (keys results) -> NoDup (keys (bind_key k results)).
Proof.
  unfold bind_key. destruct (mem k results); [auto |].
  apply NoDup_keys_setitem.
Qed.

Lemma getitem_process_result (n : string) (results : dict (list ticker))
  (info : string * task) :
  getitem n (process_result results info) =
  getitem n results ++
  (if String.eqb (fst info) n then tickers_of_task (snd info) else []).
Proof.
  destruct info as [k t]. cbn [fst snd]. unfold process_result.
  destruct t as [s [[tk |] | e] | [l | e]]; cbn [tickers_of_task].
  - rewrite getitem_setitem, !getitem_bind_key.
    destruct (String.eqb_spec k n) as [-> | N];
      [reflexivity | now rewrite app_nil_r].
  - rewrite getitem_bind_key. now destruct (String.eqb k n); rewrite app_nil_r.
  - now destruct (String.eqb k n); rewrite app_nil_r.
  - rewrite getitem_setitem, !getitem_bind_key.
    destruct (String.eqb_spec k n) as [-> | N];
      [reflexivity | now rewrite app_nil_r].
  - now destruct (String.eqb k n); rewrite app_nil_r.
Qed.

Lemma mem_process_result (n : string) (results : dict (list ticker))
  (info : string * task) :
  mem n (process_result results info) =
  mem n results || (String.eqb (fst info) n && negb (raised (snd info))).
Proof.
  destruct info as [k t]. cbn [fst snd]. unfold process_result.
  destruct t as [s [[tk |] | e] | [l | e]]; cbn [raised negb].
  - rewrite mem_setitem, mem_bind_key, andb_true_r.
    now destruct (mem n results), (String.eqb k n).
  - now rewrite mem_bind_key, andb_true_r.
  - now rewrite andb_false_r, orb_false_r.
  - rewrite mem_setitem, mem_bind_key, andb_true_r.
    now destruct (mem n results), (String.eqb k n).
  - now rewrite andb_false_r, orb_false_r.
Qed.

Lemma NoDup_keys_process_result (results : dict (list ticker))
  (info : string * task) :
  NoDup (keys results) -> NoDup (keys (process_result results info)).
Proof.
  intros ND. destruct info as [k t]. unfold process_result.
  destruct t as [s [[tk |] | e] | [l | e]]; auto using NoDup_keys_setitem,
    NoDup_keys_bind_key.
Qed.

Lemma getitem_fold_process (n : string) (tasks : list (string * task))
  (results : dict (list ticker)) :
  getitem n (fold_left process_result tasks results) =
  getitem n results ++ tickers_of_tasks (tasks_of n tasks).
Proof.
  revert results. induction tasks as [| info tasks IH]; intros results; simpl.
  - now rewrite app_nil_r.
  - rewrite IH, getitem_process_result, <- app_assoc. f_equal.
    destruct (String.eqb (fst info) n); reflexivity.
Qed.

Lemma mem_fold_process (n : string) (tasks : list (string * task))
  (results : dict (list ticker)) :
  mem n (fold_left process_result tasks results) =
  mem n results ||
  existsb (fun info => negb (raised (snd info))) (tasks_of n tasks).
Proof.
  revert results. induction tasks as [| info tasks IH]; intros results; simpl.
  - now rewrite orb_false_r.
  - rewrite IH, mem_process_result, <- orb_assoc. f_equal.
    destruct (String.eqb (fst info) n); reflexivity.
Qed.

Lemma NoDup_keys_fold_process (tasks : list (string * task))
  (results : dict (list ticker)) :
  NoDup (keys results) ->
  NoDup (keys (fold_left process_result tasks results)).
Proof.
  revert results. induction tasks as [| info tasks IH]; intros results ND;
    simpl; [exact ND |].
  now apply IH, NoDup_keys_process_result.
Qed.

Lemma getitem_process_results (n : string) (tasks : list (string * task)) :
  getitem n (process_results tasks) = tickers_of_tasks (tasks_of n tasks).
Proof. unfold process_results. now rewrite getitem_fold_process. Qed.

Lemma mem_process_results (n : string) (tasks : list (string * task)) :
  mem n (process_results tasks) =
  existsb (fun info => negb (raised (snd info))) (tasks_of n tasks).
Proof. unfold process_results. now rewrite mem_fold_process. Qed.

Lemma lookup_process_results (n : string) (tasks : list (string * task)) :
  lookup n (process_results tasks) =
  if existsb (fun info => negb (raised (snd info))) (tasks_of n tasks)
  then Some (tickers_of_tasks (tasks_of n tasks))
  else None.
Proof.
  rewrite <- mem_process_results, <- getitem_process_results.
  unfold mem, getitem. now destruct (lookup n (process_results tasks)).
Qed.

Lemma tickers_of_tasks_nil (tasks : list (string * task)) :
  (forall info, In info tasks -> tickers_of_task (snd info) = []) ->
  tickers_of_tasks tasks = [].
Proof.
  induction tasks as [| info tasks IH]; intros H; simpl; [reflexivity |].
  rewrite (H info) by now left. apply IH. intros i I. apply H. now right.
Qed.

Lemma process_results_no_tickers (tasks : list (string * task)) :
  (forall info, In info tasks -> tickers_of_task (snd info) = []) ->
  observations (process_results tasks) = [].
Proof.
  intros H.
  assert (E : forall k l, In (k, l) (process_results tasks) -> l = []).
  { intros k l I.
    apply in_lookup in I;
      [| apply NoDup_keys_fold_process; constructor].
    assert (G : getitem k (process_results tasks) = l)
      by (unfold getitem; now rewrite I).
    rewrite getitem_process_results in G. rewrite <- G.
    apply tickers_of_tasks_nil. intros info Hi. apply H.
    unfold tasks_of in Hi. now apply filter_In in Hi. }
  unfold observations.
  induction (process_results tasks) as [| [k l] r IH]; [reflexivity |].
  simpl. rewrite (E k l) by now left. simpl.
  apply IH. intros k' l' I. apply (E k'). now right.
Qed.

Lemma aggregate_no_observations (all_data : dict (list ticker)) :
  observations all_data = [] -> aggregate all_data = Ok [].
Proof.
  intros E. unfold aggregate. now rewrite add_exchanges_observations, E.
Qed.

Lemma process_results_all_raised (tasks : list (string * task)) :
  forallb (fun info => raised (snd info)) tasks = true ->
  process_results tasks = [].
Proof.
  unfold process_results. generalize (@nil (string * list ticker)).
  induction tasks as [| [k t] tasks IH]; intros results H; simpl in *;
    [reflexivity |].
  apply andb_prop in H as [Ht H].
  destruct t as [s [r | e] | [l | e]]; try discriminate; now apply IH.
Qed.

(** ** The tasks of a cycle *)

Lemma tasks_with_info_in (utcnow : string) (self : MarketCollector)
  (symbols : option (list string)) (limit : Z) (info : string * task) :
  In info (tasks_with_info utcnow self symbols limit) ->
  In (fst info) (exchange_names self) /\
  mem (fst info) (exchanges self) = true /\
  ((exists s, snd info =
              TickerTask s (Ok (get_ticker utcnow self (fst info) s))) \/
   snd info = TopPairsTask (Ok (get_top_pairs utcnow self (fst info) limit))).
Proof.
  unfold tasks_with_info. intros I.
  apply in_flat_map in I as (name & In_names & I).
  destruct (mem name (exchanges self)) eqn:M; [| destruct I].
  destruct symbols as [[| s0 rest] |].
  - destruct I as [<- | []]. simpl. auto.
  - apply in_map_iff in I as (s & <- & _). simpl. eauto.
  - destruct I as [<- | []]. simpl. auto.
Qed.

Lemma tasks_with_info_symbols (utcnow : string) (self : MarketCollector)
  (s0 : string) (rest : list string) (limit : Z) (name : string) :
  In name (exchange_names self) ->
  mem name (exchanges self) = true ->
  In (name, TickerTask s0 (Ok (get_ticker utcnow self name s0)))
     (tasks_with_info utcnow self (Some (s0 :: rest)) limit).
Proof.
  intros I M. unfold tasks_with_info. apply in_flat_map.
  exists name. split; [exact I |]. rewrite M. now left.
Qed.

Lemma tasks_with_info_top_pairs (utcnow : string) (self : MarketCollector)
  (limit : Z) (name : string) :
  In name (exchange_names self) ->
  mem name (exchanges self) = true ->
  In (name, TopPairsTask (Ok (get_top_pairs utcnow self name limit)))
     (tasks_with_info utcnow self None limit).
Proof.
  intros I M. unfold tasks_with_info. apply in_flat_map.
  exists name. split; [exact I |]. rewrite M. now left.
Qed.

Lemma adapter_fails_ticker (utcnow : string) (self : MarketCollector)
  (name s : string) :
  adapter_fails self name -> get_ticker utcnow self name s = None.
Proof.
  unfold adapter_fails, get_ticker.
  destruct (lookup name (exchanges self)) as [e |]; [| reflexivity].
  intros [_ F]. destruct (F s) as [err ->]. reflexivity.
Qed.

Lemma adapter_fails_top_pairs (utcnow : string) (self : MarketCollector)
  (name : string) (limit : Z) :
  adapter_fails self name -> get_top_pairs utcnow self name limit = [].
Proof.
  unfold adapter_fails, get_top_pairs, top_pairs_of.
  destruct (lookup name (exchanges self)) as [e |]; [| reflexivity].
  intros [[err ->] _]. reflexivity.
Qed.

Lemma get_top_pairs_zero (utcnow : string) (self : MarketCollector)
  (name : string) :
  get_top_pairs utcnow self name 0 = [].
Proof.
  unfold get_top_pairs, top_pairs_of.
  destruct (lookup name (exchanges self)) as [e |]; [| reflexivity].
  destruct (fetch_tickers e) as [tickers | err]; [| reflexivity]. simpl.
  destruct (usdt_pairs tickers); reflexivity.
Qed.

Lemma pulse_no_tickers (utcnow : string) (self : MarketCollector) (N : Z) :
  (forall info,
     In info (tasks_with_info utcnow self None N) ->
     tickers_of_task (snd info) = []) ->
  get_market_pulse utcnow self N = Ok [].
Proof.
  intros H. unfold get_market_pulse, collect_all_exchanges.
  rewrite (aggregate_no_observations _ (process_results_no_tickers _ H)).
  simpl. unfold rank. simpl. now rewrite slice_to_nil.
Qed.

(** C5.  The list bound to an exchange in the mapping of
    [collect_all_exchanges] is made of the tickers of the tasks of that
    exchange, in order: the outcomes of the tasks of other exchanges do not
    enter it.  A task that raised, or a ticker task that returned [None],
    contributes no ticker, so adding or removing such a task changes the
    list of no exchange.  When exchange A fails and exchange B reports
    BTC/USDT with volume 300, price 50010 and change 3, the pulse is one
    BTC/USDT record with exactly one contribution, from B, and total volume
    300. *)
Theorem failed_task_contributes_nothing (utcnow : string)
  (tasks tasks' : list (string * task)) (failed : string * task)
  (name : string) :
  tickers_of_task (snd failed) = [] ->
  getitem name (process_results tasks) = tickers_of_tasks (tasks_of name tasks) /\
  getitem name (process_results (tasks ++ failed :: tasks')) =
    getitem name (process_results (tasks ++ tasks')) /\
  (forall s e, tickers_of_task (TickerTask s (Raise e)) = []) /\
  (forall e, tickers_of_task (TopPairsTask (Raise e)) = []) /\
  (forall s, tickers_of_task (TickerTask s (Ok None)) = []) /\
  exists d,
    get_market_pulse utcnow A_fails 50 = Ok [d] /\
    agg_symbol d = "BTC/USDT" /\
    List.map exchange_of (agg_exchanges d) = ["B"] /\
    total_volume_24h d = num 300.
Proof.
  intros F. repeat split.
  - apply getitem_process_results.
  - rewrite !getitem_process_results. unfold tasks_of, tickers_of_tasks.
    rewrite !filter_app, !flat_map_app. f_equal. simpl.
    destruct (String.eqb (fst failed) name); [| reflexivity].
    simpl. now rewrite F.
  - eexists. split; [vm_compute; reflexivity |]. simpl.
    repeat split.
Qed.

Lemma failed_task_contributes_nothing_witness :
  exists d,
    get_market_pulse noon A_fails 50 = Ok [d] /\
    agg_symbol d = "BTC/USDT" /\
    List.map exchange_of (agg_exchanges d) = ["B"] /\
    total_volume_24h d = num 300.
Proof.
  apply (@failed_task_contributes_nothing noon
           [("B", TopPairsTask (Ok (get_top_pairs noon A_fails "B" 50)))] []
           ("A", TopPairsTask (Raise NetworkError)) "B").
  reflexivity.
Defined.

Lemma tasks_with_info_explicit (utcnow : string) (self : MarketCollector)
  (s0 : string) (rest : list string) (limit : Z) (info : string * task) :
  In info (tasks_with_info utcnow self (Some (s0 :: rest)) limit) ->
  exists s,
    In s (s0 :: rest) /\
    snd info = TickerTask s (Ok (get_ticker utcnow self (fst info) s)).
Proof.
  unfold tasks_with_info. intros I.
  apply in_flat_map in I as (name & _ & I).
  destruct (mem name (exchanges self)); [| destruct I].
  apply in_map_iff in I as (s & <- & Hs). simpl. eauto.
Qed.

Lemma tasks_with_info_none (utcnow : string) (self : MarketCollector)
  (limit : Z) (info : string * task) :
  In info (tasks_with_info utcnow self None limit) ->
  snd info = TopPairsTask (Ok (get_top_pairs utcnow self (fst info) limit)).
Proof.
  unfold tasks_with_info. intros I.
  apply in_flat_map in I as (name & _ & I).
  destruct (mem name (exchanges self)); [| destruct I].
  destruct I as [<- | []]. reflexivity.
Qed.

Lemma existsb_not_raised (tasks : list (string * task)) :
  existsb (fun info => negb (raised (snd info))) tasks = false <->
  forallb (fun info => raised (snd info)) tasks = true.
Proof.
  induction tasks as [| info tasks IH]; simpl; [tauto |].
  destruct (raised (snd info)); simpl; [exact IH | split; discriminate].
Qed.

(** C10.  With explicit symbols, an exchange that was built and whose
    every [get_ticker] call returns [None] is bound to the empty list in
    the mapping of [collect_all_exchanges]; an exchange that was not built
    is not bound; and, whatever the tasks, an exchange is left out of the
    mapping exactly when every one of its tasks ended with an exception. *)
Theorem silent_failure_keeps_key (utcnow : string) (self : MarketCollector)
  (symbols : list string) (limit : Z) (name : string) :
  symbols <> [] ->
  In name (exchange_names self) ->
  mem name (exchanges self) = true ->
  (forall s, In s symbols -> get_ticker utcnow self name s = None) ->
  lookup name (collect_all_exchanges utcnow self (Some symbols) limit)
    = Some [] /\
  (forall other,
     mem other (exchanges self) = false ->
     lookup other (collect_all_exchanges utcnow self (Some symbols) limit)
       = None) /\
  (forall tasks n,
     lookup n (process_results tasks) = None <->
     forallb (fun info => raised (snd info)) (tasks_of n tasks) = true).
Proof.
  intros NE In_names M Silent.
  destruct symbols as [| s0 rest]; [congruence |].
  unfold collect_all_exchanges. repeat split.
  - rewrite lookup_process_results.
    set (tasks := tasks_with_info utcnow self (Some (s0 :: rest)) limit).
    assert (E : existsb (fun info => negb (raised (snd info)))
                  (tasks_of name tasks) = true).
    { apply existsb_exists.
      exists (name, TickerTask s0 (Ok (get_ticker utcnow self name s0))).
      split; [| reflexivity]. unfold tasks_of. apply filter_In.
      split; [| apply String.eqb_refl].
      now apply tasks_with_info_symbols. }
    rewrite E. f_equal. apply tickers_of_tasks_nil.
    intros info I. unfold tasks_of in I. apply filter_In in I as [I En].
    apply String.eqb_eq in En.
    apply tasks_with_info_explicit in I as (s & Hs & ->).
    rewrite En, (Silent s Hs). reflexivity.
  - intros other Mo. rewrite lookup_process_results.
    destruct (existsb _ _) eqn:E; [| reflexivity].
    apply existsb_exists in E as (info & I & _).
    unfold tasks_of in I. apply filter_In in I as [I En].
    apply String.eqb_eq in En.
    apply tasks_with_info_in in I as (_ & Mi & _). congruence.
  - rewrite lookup_process_results. intros H.
    destruct (existsb _ _) eqn:E; [discriminate |].
    now apply existsb_not_raised.
  - rewrite lookup_process_results. intros H.
    apply existsb_not_raised in H. now rewrite H.
Qed.

Lemma silent_failure_keeps_key_witness :
  lookup "A" (collect_all_exchanges noon A_fails (Some ["BTC/USDT"]) 50)
    = Some [] /\
  (forall other,
     mem other (exchanges A_fails) = false ->
     lookup other (collect_all_exchanges noon A_fails (Some ["BTC/USDT"]) 50)
       = None) /\
  (forall tasks n,
     lookup n (process_results tasks) = None <->
     forallb (fun info => raised (snd info)) (tasks_of n tasks) = true).
Proof.
  apply (@silent_failure_keeps_key noon A_fails ["BTC/USDT"] 50%Z "A").
  - discriminate.
  - simpl. now left.
  - reflexivity.
  - intros s _. reflexivity.
Defined.

(** C7, as the code has it.  A limit N <= 0 raises no configuration error.
    With N = 0 the pulse is the empty list; with N < 0 the slice that ends
    the ranking drops its last |N| records. *)
Theorem nonpositive_limit_no_error (utcnow : string) (self : MarketCollector)
  (N : Z) :
  (N <= 0)%Z ->
  get_market_pulse utcnow self N <> Raise ConfigurationError /\
  (N = 0%Z -> get_market_pulse utcnow self N = Ok []) /\
  ((N < 0)%Z ->
   forall symbol_map,
     rank symbol_map N =
     firstn (List.length symbol_map - Z.to_nat (- N))
       (sorted_desc total_volume (values symbol_map))).
Proof.
  intros _. repeat split.
  - unfold get_market_pulse. intros H.
    apply bind_raise in H as [H | (m & _ & H)]; [| discriminate].
    apply aggregate_raises in H. discriminate.
  - intros ->. apply pulse_no_tickers. intros info I.
    apply tasks_with_info_none in I. rewrite I. simpl.
    apply get_top_pairs_zero.
  - intros L symbol_map. unfold rank. rewrite slice_to_negative by exact L.
    rewrite sorted_desc_length. unfold values. now rewrite length_map.
Qed.

Lemma nonpositive_limit_no_error_witness :
  get_market_pulse noon five_pairs (-1) <> Raise ConfigurationError /\
  ((-1)%Z = 0%Z -> get_market_pulse noon five_pairs (-1) = Ok []) /\
  ((-1 < 0)%Z ->
   forall symbol_map,
     rank symbol_map (-1) =
     firstn (List.length symbol_map - Z.to_nat (- (-1)))
       (sorted_desc total_volume (values symbol_map))).
Proof.
  apply (@nonpositive_limit_no_error noon five_pairs (-1)%Z). lia.
Defined.

(** C7 as stated fails: with N = 0 the pulse is returned, empty, and with
    N = -1 it is returned with one record; no error is raised. *)
Lemma nonpositive_limit_returns :
  get_market_pulse noon both_report 0 = Ok [] /\
  get_market_pulse noon both_report 0 <> Raise ConfigurationError /\
  exists pulse,
    get_market_pulse noon five_pairs (-1) = Ok pulse /\
    List.map agg_symbol pulse = ["ETH/USDT"].
Proof.
  split; [reflexivity |]. split; [discriminate |].
  eexists. split; [vm_compute; reflexivity | reflexivity].
Qed.

(** ** The top pairs of an exchange *)

Lemma usdt_pairs_in (tickers : dict raw_ticker) (pairs : list raw_ticker)
  (raw : raw_ticker) :
  usdt_pairs tickers = Ok pairs ->
  In raw pairs ->
  exists key,
    In (key, raw) tickers /\
    contains "/USDT" key = true /\
    exists q, get (raw_quoteVolume raw) zero = VNum q /\ (0 <? q)%float = true.
Proof.
  revert pairs. induction tickers as [| [k t] rest IH]; intros pairs H I;
    simpl in H.
  - injection H as <-. destruct I.
  - destruct (contains "/USDT" k) eqn:C.
    + apply bind_ok in H as (keep & Hk & H).
      apply bind_ok in H as (ps & Hp & H). injection H as <-.
      assert (R : In raw ps -> exists key,
                 In (key, raw) ((k, t) :: rest) /\
                 contains "/USDT" key = true /\
                 exists q, get (raw_quoteVolume raw) zero = VNum q /\
                           (0 <? q)%float = true).
      { intros J. destruct (IH _ Hp J) as (key & J' & R).
        exists key. split; [now right | exact R]. }
      destruct keep; [| auto]. destruct I as [<- | I]; [| auto].
      exists k. split; [now left |]. split; [exact C |].
      destruct (get (raw_quoteVolume t) zero) as [| q]; [discriminate |].
      simpl in Hk. injection Hk as Hk. eauto.
    + destruct (IH _ H I) as (key & J & R).
      exists key. split; [now right | exact R].
Qed.

Lemma usdt_pairs_well_formed (tickers : dict raw_ticker) :
  forallb well_formed tickers = true ->
  usdt_pairs tickers = Ok (map snd (filter qualifies tickers)).
Proof.
  induction tickers as [| [k t] rest IH]; intros W; [reflexivity |].
  cbn [forallb] in W. apply andb_prop in W as [Wt Wr].
  cbn [usdt_pairs filter]. rewrite (IH Wr).
  unfold well_formed in Wt. cbn [fst snd] in Wt.
  replace (qualifies (k, t))
    with (contains "/USDT" k && (0 <? quote_volume t)%float) by reflexivity.
  destruct (contains "/USDT" k); [| reflexivity].
  apply andb_prop in Wt as [_ Wt]. unfold quote_volume.
  destruct (get (raw_quoteVolume t) zero) as [| q]; [discriminate |].
  cbn [py_gt zero bind number andb].
  destruct (0 <? q)%float; reflexivity.
Qed.

(** The sort keys of [get_top_pairs] are positive, hence not NaN. *)
Lemma usdt_pairs_not_nan (tickers : dict raw_ticker)
  (pairs : list raw_ticker) :
  usdt_pairs tickers = Ok pairs -> keys_not_nan quote_volume pairs.
Proof.
  intros U. apply Forall_forall. intros raw I.
  destruct (@usdt_pairs_in _ _ _ U I) as (key & _ & _ & q & Hq & Pos).
  unfold quote_volume. rewrite Hq. simpl.
  now apply fltb_not_nan in Pos.
Qed.

Lemma append_results_in (utcnow : string) (l : list raw_ticker)
  (t : ticker) :
  In t (append_results utcnow l) ->
  exists raw,
    In raw l /\ raw_symbol raw = Some (symbol t) /\
    t = ticker_of utcnow (symbol t) raw.
Proof.
  induction l as [| x r IH]; simpl; [tauto |].
  destruct (raw_symbol x) as [s |] eqn:E; [| intros []].
  intros [<- | I].
  - exists x. simpl. auto.
  - destruct (IH I) as (raw & J & R). exists raw. auto.
Qed.

Lemma append_results_sorted (utcnow : string) (l : list raw_ticker) :
  StronglySorted (descending quote_volume) l ->
  StronglySorted by_ticker_volume (append_results utcnow l).
Proof.
  induction 1 as [| x r S IH F]; simpl; [constructor |].
  destruct (raw_symbol x) as [s |]; [| constructor].
  constructor; [exact IH |].
  apply Forall_forall. intros t I.
  apply append_results_in in I as (raw & J & _ & ->).
  rewrite Forall_forall in F. apply (F raw J).
Qed.

Lemma append_results_length (utcnow : string) (l : list raw_ticker) :
  (List.length (append_results utcnow l) <= List.length l)%nat.
Proof.
  induction l as [| x r IH]; simpl; [lia |].
  destruct (raw_symbol x); simpl; lia.
Qed.

Lemma append_results_all (utcnow : string) (l : list raw_ticker) :
  (forall raw, In raw l -> raw_symbol raw <> None) ->
  List.length (append_results utcnow l) = List.length l.
Proof.
  induction l as [| x r IH]; intros H; simpl; [reflexivity |].
  destruct (raw_symbol x) eqn:E.
  - simpl. f_equal. apply IH. intros raw I. apply H. now right.
  - exfalso. apply (H x); [now left | exact E].
Qed.

Unset Implicit Arguments.

Lemma append_results_map (utcnow : string) (l : list raw_ticker) :
  (forall r, In r l -> raw_symbol r <> None) ->
  append_results utcnow l = map (ticker_of_raw utcnow) l.
Proof.
  induction l as [| x r IH]; intros H; simpl; [reflexivity |].
  unfold ticker_of_raw at 1.
  destruct (raw_symbol x) as [s |] eqn:E.
  - f_equal. apply IH. intros y I. apply H. now right.
  - exfalso. apply (H x); [now left | exact E].
Qed.

Lemma get_top_pairs_well_formed (utcnow : string) (self : MarketCollector)
  (name : string) (limit : Z) (e : exchange) (tickers : dict raw_ticker) :
  lookup name (exchanges self) = Some e ->
  fetch_tickers e = Ok tickers ->
  forallb well_formed tickers = true ->
  get_top_pairs utcnow self name limit =
  map (ticker_of_raw utcnow)
    (slice_to limit
       (sorted_desc quote_volume (map snd (filter qualifies tickers)))).
Proof.
  intros L F W. unfold get_top_pairs, top_pairs_of. rewrite L, F. simpl.
  rewrite (usdt_pairs_well_formed _ W). simpl.
  apply append_results_map. intros r I. apply slice_to_incl in I.
  apply (Permutation_in _ (sorted_desc_permutation quote_volume _)) in I.
  apply in_map_iff in I as ([k t] & <- & I). apply filter_In in I as [I _].
  rewrite forallb_forall in W. specialize (W _ I). unfold well_formed in W.
  apply andb_prop in W as [W _]. simpl in *.
  destruct (raw_symbol t); discriminate.
Qed.

Set Implicit Arguments.

Lemma top_pairs_filter_rank_bound (utcnow : string)
  (self : MarketCollector) (name : string) (limit : Z) :
  (forall t,
     In t (get_top_pairs utcnow self name limit) ->
     exists e tickers key raw,
       lookup name (exchanges self) = Some e /\
       fetch_tickers e = Ok tickers /\
       In (key, raw) tickers /\
       contains "/USDT" key = true /\
       raw_symbol raw = Some (symbol t) /\
       t = ticker_of utcnow (symbol t) raw /\
       exists q, volume_24h t = VNum q /\ (0 <? q)%float = true) /\
  StronglySorted by_ticker_volume (get_top_pairs utcnow self name limit) /\
  ((0 <= limit)%Z ->
   (List.length (get_top_pairs utcnow self name limit) <= Z.to_nat limit)%nat /\
   forall e tickers,
     lookup name (exchanges self) = Some e ->
     fetch_tickers e = Ok tickers ->
     forallb well_formed tickers = true ->
     List.length (get_top_pairs utcnow self name limit) =
     Nat.min (Z.to_nat limit) (List.length (filter qualifies tickers))).
Proof.
  unfold get_top_pairs, top_pairs_of.
  destruct (lookup name (exchanges self)) as [e |] eqn:L.
  2: { split; [intros t [] | split; [constructor |]].
       intros _. split; [simpl; lia | intros; discriminate]. }
  destruct (fetch_tickers e) as [tickers | err] eqn:Ft; simpl.
  2: { split; [intros t [] | split; [constructor |]].
       intros _. split; [simpl; lia |].
       intros e' tickers' [= <-] H. congruence. }
  destruct (usdt_pairs tickers) as [pairs | err] eqn:U; simpl.
  2: { split; [intros t [] | split; [constructor |]].
       intros _. split; [simpl; lia |].
       intros e' tickers' [= <-] H W.
       assert (tickers' = tickers) by congruence. subst tickers'.
       rewrite (usdt_pairs_well_formed _ W) in U. discriminate. }
  split; [| split].
  - intros t I. apply append_results_in in I as (raw & I & Hs & Ht).
    apply slice_to_incl in I.
    apply (Permutation_in _ (sorted_desc_permutation quote_volume pairs))
      in I.
    destruct (@usdt_pairs_in _ _ _ U I) as (key & J & C & q & Hq & Pos).
    exists e, tickers, key, raw. repeat split; auto.
    exists q. split; [| exact Pos]. rewrite Ht. exact Hq.
  - apply append_results_sorted.
    destruct (slice_to_firstn limit (sorted_desc quote_volume pairs))
      as [k ->].
    apply firstn_strongly_sorted, sorted_desc_sorted.
    exact (usdt_pairs_not_nan _ U).
  - intros Pos. split.
    + pose proof (append_results_length utcnow
                    (slice_to limit (sorted_desc quote_volume pairs))) as Len.
      rewrite slice_to_length in Len by assumption. lia.
    + intros e' tickers' [= <-] H W.
      assert (tickers' = tickers) by congruence. subst tickers'.
      rewrite (usdt_pairs_well_formed _ W) in U. injection U as <-.
      rewrite append_results_all.
      * rewrite slice_to_length by assumption.
        now rewrite sorted_desc_length, length_map.
      * intros raw I. apply slice_to_incl in I.
        apply (Permutation_in _ (sorted_desc_permutation quote_volume _))
          in I.
        apply in_map_iff in I as ([k t] & <- & I).
        apply filter_In in I as [I _].
        rewrite forallb_forall in W. specialize (W _ I).
        unfold well_formed in W. apply andb_prop in W as [W _].
        simpl in *. destruct (raw_symbol t); discriminate.
Qed.

(** C8.  Every ticker that [get_top_pairs] returns is one of the
    exchange's tickers that is quoted in the quote asset, which the code
    reads off the key (it contains "/USDT"), and whose 24h quote volume
    is a number greater than zero; the tickers are in descending order of
    volume.  The limit is a count: for a limit >= 0 at most [limit]
    tickers are returned, and when every raw ticker carries its symbol and
    a number as its volume their number is min(limit, number of pairs
    that pass the two filters): the filters come before the ranking and
    the truncation.  For such raw tickers the tickers returned are those
    of the pairs that pass the two filters, sorted by volume, greatest
    first, and then cut by the slice. *)
Theorem top_pairs_filtered_then_ranked (utcnow : string)
  (self : MarketCollector) (name : string) (limit : Z) :
  (forall t,
     In t (get_top_pairs utcnow self name limit) ->
     exists e tickers key raw,
       lookup name (exchanges self) = Some e /\
       fetch_tickers e = Ok tickers /\
       In (key, raw) tickers /\
       contains "/USDT" key = true /\
       raw_symbol raw = Some (symbol t) /\
       t = ticker_of utcnow (symbol t) raw /\
       exists q, volume_24h t = VNum q /\ (0 <? q)%float = true) /\
  StronglySorted by_ticker_volume (get_top_pairs utcnow self name limit) /\
  ((0 <= limit)%Z ->
   (List.length (get_top_pairs utcnow self name limit) <= Z.to_nat limit)%nat /\
   forall e tickers,
     lookup name (exchanges self) = Some e ->
     fetch_tickers e = Ok tickers ->
     forallb well_formed tickers = true ->
     List.length (get_top_pairs utcnow self name limit) =
     Nat.min (Z.to_nat limit) (List.length (filter qualifies tickers))) /\
  (forall e tickers,
     lookup name (exchanges self) = Some e ->
     fetch_tickers e = Ok tickers ->
     forallb well_formed tickers = true ->
     get_top_pairs utcnow self name limit =
     map (ticker_of_raw utcnow)
       (slice_to limit
          (sorted_desc quote_volume (map snd (filter qualifies tickers))))).
Proof.
  destruct (@top_pairs_filter_rank_bound utcnow self name limit)
    as (H1 & H2 & H3).
  repeat (split; [assumption |]).
  intros e tickers. apply get_top_pairs_well_formed.
Qed.

Lemma top_pairs_filtered_then_ranked_witness :
  (List.length (get_top_pairs noon five_pairs "A" 2) <= Z.to_nat 2)%nat /\
  forall e tickers,
    lookup "A" (exchanges five_pairs) = Some e ->
    fetch_tickers e = Ok tickers ->
    forallb well_formed tickers = true ->
    List.length (get_top_pairs noon five_pairs "A" 2) =
    Nat.min (Z.to_nat 2) (List.length (filter qualifies tickers)).
Proof.
  apply (proj1 (proj2 (proj2
           (top_pairs_filtered_then_ranked noon five_pairs "A" 2)))).
  lia.
Defined.

(** C9.  A field whose key is absent from the exchange's answer is zero in
    the ticker that [get_ticker] builds; a field whose key is bound to
    [None] stays [None].  For an exchange that reports BTC/USDT with the
    last price bound to [None], [get_ticker] returns a ticker whose price
    is [None], and [get_market_pulse] over the same answer stops with a
    [TypeError] when it sums the prices. *)
Theorem none_price_propagates (utcnow : string) :
  (forall s sym volume change high low,
     price (ticker_of utcnow s
              (Build_raw_ticker sym None volume change high low)) = zero) /\
  (forall s sym volume change high low,
     price (ticker_of utcnow s
              (Build_raw_ticker sym (Some VNone) volume change high low))
     = VNone) /\
  (exists t,
     get_ticker utcnow reports_none "A" "BTC/USDT" = Some t /\
     price t = VNone /\ volume_24h t = num 300) /\
  get_market_pulse utcnow reports_none 50 = Raise TypeError.
Proof.
  repeat split.
  eexists. repeat split.
Qed.

(** * Further properties of the collector *)

Unset Implicit Arguments.

(** ** Construction *)

Lemma init_fold_lookup (ccxt : string -> option exchange)
  (names : list string) (d : dict exchange) (name : string) :
  lookup name
    (fold_left
       (fun d exchange_name =>
          match ccxt exchange_name with
          | Some e => setitem exchange_name e d
          | None => d
          end) names d) =
  if existsb (String.eqb name) names
  then match ccxt name with Some e => Some e | None => lookup name d end
  else lookup name d.
Proof.
  revert d. induction names as [| n names IH]; intros d; simpl;
    [reflexivity |].
  rewrite IH. destruct (String.eqb_spec name n) as [<- | N]; simpl.
  - destruct (ccxt name) as [e |] eqn:C.
    + rewrite lookup_setitem_eq.
      now destruct (existsb (String.eqb name) names).
    + now destruct (existsb (String.eqb name) names).
  - destruct (ccxt n) as [e |]; [| reflexivity].
    rewrite lookup_setitem_neq by congruence. reflexivity.
Qed.

Lemma init_fold_NoDup (ccxt : string -> option exchange)
  (names : list string) (d : dict exchange) :
  NoDup (keys d) ->
  NoDup
    (keys
       (fold_left
          (fun d exchange_name =>
             match ccxt exchange_name with
             | Some e => setitem exchange_name e d
             | None => d
             end) names d)).
Proof.
  revert d. induction names as [| n names IH]; intros d ND; simpl;
    [exact ND |].
  apply IH. destruct (ccxt n); [now apply NoDup_keys_setitem | exact ND].
Qed.

(** X1.  The collector that [__init__] builds binds an exchange name
    exactly when the name is among the names given and the exchange
    library builds it; a name that the library does not know is left out
    without an error, the list of names is kept as given, and no name is
    bound twice. *)
Theorem init_binds_built_names (ccxt : string -> option exchange)
  (names : list string) (name : string) :
  lookup name (exchanges (init ccxt names)) =
    (if existsb (String.eqb name) names then ccxt name else None) /\
  exchange_names (init ccxt names) = names /\
  NoDup (keys (exchanges (init ccxt names))).
Proof.
  unfold init. cbn [exchanges exchange_names]. repeat split.
  - rewrite init_fold_lookup. cbn [lookup].
    destruct (existsb (String.eqb name) names); [| reflexivity].
    now destruct (ccxt name).
  - apply init_fold_NoDup. constructor.
Qed.

(** X2.  On a collector built by [__init__], [get_ticker] returns a ticker
    exactly when the exchange name was among the names given, the library
    built the exchange and the fetch returned; the ticker then carries the
    symbol that was asked for.  In every other case it returns [None]. *)
Theorem get_ticker_after_init (utcnow : string)
  (ccxt : string -> option exchange) (names : list string)
  (name s : string) (t : ticker) :
  get_ticker utcnow (init ccxt names) name s = Some t <->
  In name names /\
  exists e raw,
    ccxt name = Some e /\ fetch_ticker e s = Ok raw /\
    t = ticker_of utcnow s raw /\ symbol t = s.
Proof.
  unfold get_ticker.
  destruct (init_binds_built_names ccxt names name) as [-> _].
  destruct (existsb (String.eqb name) names) eqn:E.
  - apply existsb_exists in E as (n & I & En). apply String.eqb_eq in En.
    subst n. destruct (ccxt name) as [e |].
    + destruct (fetch_ticker e s) as [raw | err] eqn:F.
      * split.
        -- intros [= <-]. split; [exact I |]. exists e, raw. auto.
        -- intros (_ & e' & raw' & [= <-] & F' & -> & _).
           rewrite F in F'. now injection F' as <-.
      * split; [discriminate |].
        intros (_ & e' & raw' & [= <-] & F' & _). congruence.
    + split; [discriminate |]. intros (_ & e' & raw' & C & _). discriminate.
  - split; [discriminate |]. intros (I & _). exfalso.
    assert (T : existsb (String.eqb name) names = true).
    { apply existsb_exists. exists name. split; [exact I |].
      apply String.eqb_refl. }
    congruence.
Qed.

(** ** Top pairs: malformed answers *)

Lemma usdt_pairs_none_volume (tickers : dict raw_ticker) (k : string)
  (raw : raw_ticker) :
  In (k, raw) tickers ->
  contains "/USDT" k = true ->
  raw_quoteVolume raw = Some VNone ->
  usdt_pairs tickers = Raise TypeError.
Proof.
  intros I C V. induction tickers as [| [k' t] rest IH]; [destruct I |].
  simpl. destruct I as [[= -> ->] | I].
  - rewrite C, V. reflexivity.
  - destruct (contains "/USDT" k'); [| auto].
    destruct (get (raw_quoteVolume t) zero) as [| q]; [reflexivity |].
    simpl. now rewrite (IH I).
Qed.

(** X3.  When the answer of an exchange holds one pair quoted in USDT
    whose volume is bound to [None], [get_top_pairs] returns the empty
    list: the comparison with 0 raises inside the [try] block before any
    ticker is appended, so every other pair of that exchange is lost with
    it. *)
Theorem none_volume_empties_top_pairs (utcnow : string)
  (self : MarketCollector) (name : string) (limit : Z) (e : exchange)
  (tickers : dict raw_ticker) (k : string) (raw : raw_ticker) :
  lookup name (exchanges self) = Some e ->
  fetch_tickers e = Ok tickers ->
  In (k, raw) tickers ->
  contains "/USDT" k = true ->
  raw_quoteVolume raw = Some VNone ->
  get_top_pairs utcnow self name limit = [].
Proof.
  intros L F I C V. unfold get_top_pairs, top_pairs_of. rewrite L, F.
  simpl. now rewrite (usdt_pairs_none_volume tickers k raw I C V).
Qed.

Lemma none_volume_empties_top_pairs_witness :
  get_top_pairs noon
    {| exchanges :=
         [("A", serving [("BTC/USDT", quote "BTC/USDT" 50000 300 1);
                         ("ETH/USDT",
                          {| raw_symbol := Some "ETH/USDT";
                             raw_last := Some (num 3000);
                             raw_quoteVolume := Some VNone;
                             raw_percentage := Some (num 2);
                             raw_high := None;
                             raw_low := None |})])];
       exchange_names := ["A"] |} "A" 50 = [].
Proof.
  eapply (@none_volume_empties_top_pairs noon _ "A" 50%Z _ _ "ETH/USDT").
  - reflexivity.
  - reflexivity.
  - right. left. reflexivity.
  - reflexivity.
  - reflexivity.
Defined.

Lemma usdt_pairs_usdt_keys (tickers : dict raw_ticker) :
  usdt_pairs tickers = usdt_pairs (filter usdt_key tickers).
Proof.
  induction tickers as [| [k t] rest IH]; [reflexivity |].
  cbn [usdt_pairs filter]. unfold usdt_key at 1. cbn [fst].
  destruct (contains "/USDT" k) eqn:C; [| exact IH].
  cbn [usdt_pairs]. rewrite C, IH. reflexivity.
Qed.

(** X4.  The pairs whose key does not contain "/USDT" have no effect on
    [get_top_pairs], not even when they are malformed: two exchanges
    whose answers hold the same USDT pairs in the same order give the
    same top pairs. *)
Theorem top_pairs_ignore_other_quotes (utcnow : string)
  (self self' : MarketCollector) (name name' : string) (limit : Z)
  (e e' : exchange) (tickers tickers' : dict raw_ticker) :
  lookup name (exchanges self) = Some e ->
  lookup name' (exchanges self') = Some e' ->
  fetch_tickers e = Ok tickers ->
  fetch_tickers e' = Ok tickers' ->
  filter usdt_key tickers = filter usdt_key tickers' ->
  get_top_pairs utcnow self name limit =
  get_top_pairs utcnow self' name' limit.
Proof.
  intros L L' F F' E. unfold get_top_pairs, top_pairs_of.
  rewrite L, L', F, F'. simpl.
  now rewrite (usdt_pairs_usdt_keys tickers), (usdt_pairs_usdt_keys tickers'), E.
Qed.

Lemma top_pairs_ignore_other_quotes_witness :
  get_top_pairs noon five_pairs "A" 2 =
  get_top_pairs noon
    {| exchanges :=
         [("B", serving [("BTC/USDT", quote "BTC/USDT" 50000 300 1);
                         ("ETH/USDT", quote "ETH/USDT" 3000 500 2);
                         ("XYZ/USDT", quote "XYZ/USDT" 1 0 0);
                         ("SOL/USDT", quote "SOL/USDT" 150 400 3);
                         ("DOGE/BTC",
                          {| raw_symbol := None;
                             raw_last := Some VNone;
                             raw_quoteVolume := Some VNone;
                             raw_percentage := None;
                             raw_high := None;
                             raw_low := None |})])];
       exchange_names := ["B"] |} "B" 2.
Proof.
  eapply (@top_pairs_ignore_other_quotes noon five_pairs _ "A" "B" 2%Z);
    reflexivity.
Defined.

Lemma append_results_app (utcnow : string) (l l' : list raw_ticker) :
  (forall r, In r l -> raw_symbol r <> None) ->
  append_results utcnow (l ++ l') =
  map (ticker_of_raw utcnow) l ++ append_results utcnow l'.
Proof.
  induction l as [| x r IH]; intros H; simpl; [reflexivity |].
  unfold ticker_of_raw at 1.
  destruct (raw_symbol x) as [s |] eqn:E.
  - f_equal. apply IH. intros y I. apply H. now right.
  - exfalso. apply (H x); [now left | exact E].
Qed.

(** X5.  When a ranked pair lacks the key 'symbol', [get_top_pairs]
    returns the tickers of the pairs ranked before it and nothing of what
    follows: the [KeyError] ends the loop inside the [try] block and the
    tickers already appended are kept. *)
Theorem missing_symbol_truncates (utcnow : string) (self : MarketCollector)
  (name : string) (limit : Z) (e : exchange)
  (before after : list raw_ticker) (bad : raw_ticker) :
  lookup name (exchanges self) = Some e ->
  top_pairs_of e limit = Ok (before ++ bad :: after) ->
  (forall r, In r before -> raw_symbol r <> None) ->
  raw_symbol bad = None ->
  get_top_pairs utcnow self name limit = map (ticker_of_raw utcnow) before.
Proof.
  intros L T G B. unfold get_top_pairs. rewrite L, T.
  rewrite (append_results_app utcnow before (bad :: after) G). simpl. rewrite B.
  apply app_nil_r.
Qed.

Lemma missing_symbol_truncates_witness :
  get_top_pairs noon
    {| exchanges :=
         [("A", serving [("BTC/USDT", quote "BTC/USDT" 50000 300 1);
                         ("ETH/USDT",
                          {| raw_symbol := None;
                             raw_last := Some (num 3000);
                             raw_quoteVolume := Some (num 200);
                             raw_percentage := Some (num 2);
                             raw_high := None;
                             raw_low := None |});
                         ("SOL/USDT", quote "SOL/USDT" 150 100 3)])];
       exchange_names := ["A"] |} "A" 50 =
  map (ticker_of_raw noon) [quote "BTC/USDT" 50000 300 1].
Proof.
  eapply (@missing_symbol_truncates noon _ "A" 50%Z _
            [quote "BTC/USDT" 50000 300 1]
            [quote "SOL/USDT" 150 100 3]).
  - reflexivity.
  - vm_compute. reflexivity.
  - intros r [<- | []]. discriminate.
  - reflexivity.
Defined.

(** ** Top pairs and ranking: the greatest volumes are kept *)

Lemma StronglySorted_app_order {A : Type} (R : A -> A -> Prop)
  (l1 l2 : list A) (x y : A) :
  StronglySorted R (l1 ++ l2) -> In x l1 -> In y l2 -> R x y.
Proof.
  induction l1 as [| a l1 IH]; intros S Ix Iy; [destruct Ix |].
  simpl in S. inversion S as [| ? ? S' F]; subst.
  destruct Ix as [<- | Ix].
  - rewrite Forall_forall in F. apply F. apply in_or_app. now right.
  - now apply IH.
Qed.

Lemma slice_sorted_keeps_greater {A : Type} (key : A -> float) (n : Z)
  (l : list A) (x y : A) :
  keys_not_nan key l ->
  In x (slice_to n (sorted_desc key l)) ->
  In y l ->
  (key x <? key y)%float = true ->
  In y (slice_to n (sorted_desc key l)).
Proof.
  intros NN Ix Iy Lt.
  destruct (slice_to_firstn n (sorted_desc key l)) as [k E].
  rewrite E in *.
  apply (Permutation_in _ (Permutation_sym (sorted_desc_permutation key l)))
    in Iy.
  rewrite <- (firstn_skipn k (sorted_desc key l)) in Iy.
  apply in_app_or in Iy as [Iy | Iy]; [exact Iy |].
  exfalso. apply fltb_not_leb in Lt.
  assert (D : descending key x y).
  { apply (StronglySorted_app_order (descending key)
             (firstn k (sorted_desc key l)) (skipn k (sorted_desc key l)));
      [| exact Ix | exact Iy].
    rewrite firstn_skipn. apply sorted_desc_sorted, NN. }
  unfold descending in D. congruence.
Qed.

Lemma qualifying_not_nan (tickers : dict raw_ticker) :
  keys_not_nan quote_volume (map snd (filter qualifies tickers)).
Proof.
  apply Forall_forall. intros r I.
  apply in_map_iff in I as ([k t] & <- & I). apply filter_In in I as [_ Q].
  unfold qualifies in Q. apply andb_prop in Q as [_ Q]. simpl in *.
  now apply fltb_not_nan in Q.
Qed.

(** X6.  When every raw ticker of the answer carries its symbol and a
    number as its volume, [get_top_pairs] keeps the greatest volumes: a
    pair that passes the two filters and whose volume is greater than
    that of some returned ticker is itself returned. *)
Theorem top_pairs_keep_greatest (utcnow : string) (self : MarketCollector)
  (name : string) (limit : Z) (e : exchange) (tickers : dict raw_ticker)
  (t : ticker) (k : string) (raw : raw_ticker) :
  lookup name (exchanges self) = Some e ->
  fetch_tickers e = Ok tickers ->
  forallb well_formed tickers = true ->
  In t (get_top_pairs utcnow self name limit) ->
  In (k, raw) tickers ->
  qualifies (k, raw) = true ->
  (number (volume_24h t) <? quote_volume raw)%float = true ->
  In (ticker_of_raw utcnow raw) (get_top_pairs utcnow self name limit).
Proof.
  intros L F W It Ir Q Lt.
  rewrite (get_top_pairs_well_formed utcnow self name limit e tickers L F W)
    in *.
  apply in_map_iff in It as (r & <- & It). apply in_map.
  apply (slice_sorted_keeps_greater quote_volume limit _ r raw
           (qualifying_not_nan tickers) It);
    [| exact Lt].
  apply in_map_iff. exists (k, raw). split; [reflexivity |].
  apply filter_In. auto.
Qed.

Lemma top_pairs_keep_greatest_witness :
  In (ticker_of_raw noon (quote "ETH/USDT" 3000 500 2))
     (get_top_pairs noon five_pairs "A" 2).
Proof.
  apply (top_pairs_keep_greatest noon five_pairs "A" 2%Z
           (serving [("BTC/USDT", quote "BTC/USDT" 50000 300 1);
                     ("ETH/BTC", quote "ETH/BTC" 1 900 1);
                     ("ETH/USDT", quote "ETH/USDT" 3000 500 2);
                     ("XYZ/USDT", quote "XYZ/USDT" 1 0 0);
                     ("SOL/USDT", quote "SOL/USDT" 150 400 3)])
           [("BTC/USDT", quote "BTC/USDT" 50000 300 1);
            ("ETH/BTC", quote "ETH/BTC" 1 900 1);
            ("ETH/USDT", quote "ETH/USDT" 3000 500 2);
            ("XYZ/USDT", quote "XYZ/USDT" 1 0 0);
            ("SOL/USDT", quote "SOL/USDT" 150 400 3)]
           (ticker_of_raw noon (quote "SOL/USDT" 150 400 3))
           "ETH/USDT" (quote "ETH/USDT" 3000 500 2)).
  - reflexivity.
  - reflexivity.
  - reflexivity.
  - right. left. reflexivity.
  - right. right. left. reflexivity.
  - reflexivity.
  - vm_compute. reflexivity.
Defined.

(** X7.  For a negative limit and an answer whose raw tickers all carry
    their symbol and a number as their volume, [get_top_pairs] returns
    all the pairs that pass the filters but the last |limit| of the
    ranking, and none when there are no more than |limit|. *)
Theorem top_pairs_negative_limit (utcnow : string) (self : MarketCollector)
  (name : string) (limit : Z) (e : exchange) (tickers : dict raw_ticker) :
  (limit < 0)%Z ->
  lookup name (exchanges self) = Some e ->
  fetch_tickers e = Ok tickers ->
  forallb well_formed tickers = true ->
  get_top_pairs utcnow self name limit =
    map (ticker_of_raw utcnow)
      (firstn (List.length (filter qualifies tickers) - Z.to_nat (- limit))
         (sorted_desc quote_volume (map snd (filter qualifies tickers)))) /\
  List.length (get_top_pairs utcnow self name limit) =
    (List.length (filter qualifies tickers) - Z.to_nat (- limit))%nat.
Proof.
  intros Neg L F W.
  rewrite (get_top_pairs_well_formed utcnow self name limit e tickers L F W).
  rewrite slice_to_negative by exact Neg.
  rewrite sorted_desc_length, !length_map.
  split; [reflexivity |].
  rewrite length_firstn, sorted_desc_length, length_map. lia.
Qed.

Lemma top_pairs_negative_limit_witness :
  List.length (get_top_pairs noon five_pairs "A" (-2)) = 1%nat.
Proof.
  apply (proj2 (top_pairs_negative_limit noon five_pairs "A" (-2)%Z
           (serving [("BTC/USDT", quote "BTC/USDT" 50000 300 1);
                     ("ETH/BTC", quote "ETH/BTC" 1 900 1);
                     ("ETH/USDT", quote "ETH/USDT" 3000 500 2);
                     ("XYZ/USDT", quote "XYZ/USDT" 1 0 0);
                     ("SOL/USDT", quote "SOL/USDT" 150 400 3)])
           [("BTC/USDT", quote "BTC/USDT" 50000 300 1);
            ("ETH/BTC", quote "ETH/BTC" 1 900 1);
            ("ETH/USDT", quote "ETH/USDT" 3000 500 2);
            ("XYZ/USDT", quote "XYZ/USDT" 1 0 0);
            ("SOL/USDT", quote "SOL/USDT" 150 400 3)]
           ltac:(lia) eq_refl eq_refl eq_refl)).
Defined.

(** ** The mapping of a cycle *)

Lemma tasks_with_info_flat_map (utcnow : string) (self : MarketCollector)
  (symbols : option (list string)) (limit : Z) :
  tasks_with_info utcnow self symbols limit =
  flat_map (tasks_of_exchange utcnow self symbols limit)
    (exchange_names self).
Proof. reflexivity. Qed.

Lemma tasks_of_exchange_fst (utcnow : string) (self : MarketCollector)
  (symbols : option (list string)) (limit : Z) (n : string)
  (info : string * task) :
  In info (tasks_of_exchange utcnow self symbols limit n) ->
  fst info = n /\ raised (snd info) = false.
Proof.
  unfold tasks_of_exchange. destruct (mem n (exchanges self)); [| intros []].
  destruct symbols as [[| s0 rest] |].
  - intros [<- | []]. auto.
  - intros I. apply in_map_iff in I as (s & <- & _). auto.
  - intros [<- | []]. auto.
Qed.

Lemma tasks_of_same (utcnow : string) (self : MarketCollector)
  (symbols : option (list string)) (limit : Z) (n : string) :
  tasks_of n (tasks_of_exchange utcnow self symbols limit n) =
  tasks_of_exchange utcnow self symbols limit n.
Proof.
  unfold tasks_of.
  assert (H : forall info,
             In info (tasks_of_exchange utcnow self symbols limit n) ->
             String.eqb (fst info) n = true).
  { intros info I. apply tasks_of_exchange_fst in I as [-> _].
    apply String.eqb_refl. }
  induction (tasks_of_exchange utcnow self symbols limit n) as [| i l IH];
    [reflexivity |].
  simpl. rewrite (H i) by now left. f_equal. apply IH.
  intros info I. apply H. now right.
Qed.

Lemma tasks_of_other (utcnow : string) (self : MarketCollector)
  (symbols : option (list string)) (limit : Z) (n name : string) :
  n <> name ->
  tasks_of name (tasks_of_exchange utcnow self symbols limit n) = [].
Proof.
  intros N. unfold tasks_of.
  assert (H : forall info,
             In info (tasks_of_exchange utcnow self symbols limit n) ->
             String.eqb (fst info) name = false).
  { intros info I. apply tasks_of_exchange_fst in I as [-> _].
    now apply String.eqb_neq. }
  induction (tasks_of_exchange utcnow self symbols limit n) as [| i l IH];
    [reflexivity |].
  simpl. rewrite (H i) by now left. apply IH.
  intros info I. apply H. now right.
Qed.

Lemma tickers_of_tasks_exchange (utcnow : string) (self : MarketCollector)
  (symbols : option (list string)) (limit : Z) (n : string) :
  tickers_of_tasks (tasks_of_exchange utcnow self symbols limit n) =
  exchange_tickers utcnow self symbols limit n.
Proof.
  unfold tasks_of_exchange, exchange_tickers, tickers_of_tasks.
  destruct (mem n (exchanges self)); [| reflexivity].
  destruct symbols as [[| s0 rest] |]; simpl; try apply app_nil_r.
  f_equal. induction rest as [| s rest IH]; [reflexivity |].
  simpl. now rewrite IH.
Qed.

Lemma tasks_of_flat_map (utcnow : string) (self : MarketCollector)
  (symbols : option (list string)) (limit : Z) (names : list string)
  (name : string) :
  tickers_of_tasks
    (tasks_of name
       (flat_map (tasks_of_exchange utcnow self symbols limit) names)) =
  List.concat
    (repeat (exchange_tickers utcnow self symbols limit name)
       (count_occ string_dec names name)).
Proof.
  induction names as [| n names IH]; [reflexivity |].
  cbn [flat_map count_occ]. unfold tasks_of in *. rewrite filter_app.
  unfold tickers_of_tasks in *. rewrite flat_map_app, IH.
  destruct (string_dec n name) as [-> | N].
  - fold (tasks_of name (tasks_of_exchange utcnow self symbols limit name)).
    rewrite tasks_of_same.
    fold (tickers_of_tasks (tasks_of_exchange utcnow self symbols limit name)).
    rewrite tickers_of_tasks_exchange. reflexivity.
  - fold (tasks_of name (tasks_of_exchange utcnow self symbols limit n)).
    rewrite (tasks_of_other utcnow self symbols limit n name N). reflexivity.
Qed.

Lemma bound_flat_map (utcnow : string) (self : MarketCollector)
  (symbols : option (list string)) (limit : Z) (names : list string)
  (name : string) :
  existsb (fun info => negb (raised (snd info)))
    (tasks_of name
       (flat_map (tasks_of_exchange utcnow self symbols limit) names)) =
  existsb (String.eqb name) names && mem name (exchanges self).
Proof.
  induction names as [| n names IH]; [reflexivity |].
  cbn [flat_map existsb]. unfold tasks_of in *.
  rewrite filter_app, existsb_app, IH.
  destruct (String.eqb_spec name n) as [<- | N].
  - fold (tasks_of name (tasks_of_exchange utcnow self symbols limit name)).
    rewrite tasks_of_same. unfold tasks_of_exchange.
    destruct (mem name (exchanges self));
      [| simpl; now rewrite andb_false_r].
    destruct symbols as [[| s0 rest] |]; reflexivity.
  - fold (tasks_of name (tasks_of_exchange utcnow self symbols limit n)).
    rewrite (tasks_of_other utcnow self symbols limit n name) by congruence.
    reflexivity.
Qed.

Lemma collected_binding (utcnow : string) (self : MarketCollector)
  (symbols : option (list string)) (limit : Z) (name : string) :
  lookup name (collect_all_exchanges utcnow self symbols limit) =
  if existsb (String.eqb name) (exchange_names self) &&
     mem name (exchanges self)
  then Some
         (List.concat
            (repeat (exchange_tickers utcnow self symbols limit name)
               (count_occ string_dec (exchange_names self) name)))
  else None.
Proof.
  unfold collect_all_exchanges.
  rewrite lookup_process_results, tasks_with_info_flat_map.
  now rewrite bound_flat_map, tasks_of_flat_map.
Qed.

Lemma tasks_with_info_unbuilt (utcnow : string) (self : MarketCollector)
  (symbols : option (list string)) (limit : Z) :
  (forall name,
     In name (exchange_names self) -> mem name (exchanges self) = false) ->
  tasks_with_info utcnow self symbols limit = [].
Proof.
  unfold tasks_with_info.
  induction (exchange_names self) as [| n names IH]; intros H;
    [reflexivity |].
  cbn [flat_map]. rewrite (H n) by now left.
  apply IH. intros name I. apply H. now right.
Qed.

(** C4, against the claim as stated: when every adapter fails, the
    mapping of the cycle is not the empty mapping.  Two exchanges that
    were built and cannot be reached are each bound to an empty list, for
    top pairs as for explicit symbols. *)
Lemma all_fail_mapping_not_empty :
  (forall name,
     In name (exchange_names all_fail) -> adapter_fails all_fail name) /\
  collect_all_exchanges noon all_fail None 50 = [("A", []); ("B", [])] /\
  collect_all_exchanges noon all_fail (Some ["BTC/USDT"]) 50 =
    [("A", []); ("B", [])] /\
  collect_all_exchanges noon all_fail None 50 <> [].
Proof.
  split; [| split; [reflexivity | split; [reflexivity | discriminate]]].
  intros name [<- | [<- | []]]; vm_compute; eauto.
Qed.

(** C4, as the code has it.  When every exchange adapter fails in a cycle
    (every call to the exchange raises, or the exchange was never built),
    nothing is raised: [get_market_pulse] returns the empty pulse list,
    and the mapping of [collect_all_exchanges], for explicit symbols as
    for top pairs, binds every listed exchange that was built to the
    empty list and binds no other name; it is the empty mapping only when
    no listed exchange was built.  It aggregates to the empty symbol
    map. *)
Theorem all_adapters_fail_empty_result (utcnow : string)
  (self : MarketCollector) (N : Z) :
  (forall name, In name (exchange_names self) -> adapter_fails self name) ->
  get_market_pulse utcnow self N = Ok [] /\
  (forall symbols name,
     lookup name (collect_all_exchanges utcnow self symbols N) =
     if existsb (String.eqb name) (exchange_names self) &&
        mem name (exchanges self)
     then Some []
     else None) /\
  (forall symbols,
     collect_all_exchanges utcnow self symbols N = [] <->
     forall name,
       In name (exchange_names self) -> mem name (exchanges self) = false) /\
  (forall symbols,
     aggregate (collect_all_exchanges utcnow self symbols N) = Ok []).
Proof.
  intros F.
  assert (T : forall symbols info,
             In info (tasks_with_info utcnow self symbols N) ->
             tickers_of_task (snd info) = []).
  { intros symbols info I.
    apply tasks_with_info_in in I as (In_names & _ & [[s E] | E]);
      rewrite E; simpl.
    - now rewrite (adapter_fails_ticker utcnow self _ s (F _ In_names)).
    - apply adapter_fails_top_pairs. auto. }
  assert (L : forall symbols name,
             lookup name (collect_all_exchanges utcnow self symbols N) =
             if existsb (String.eqb name) (exchange_names self) &&
                mem name (exchanges self)
             then Some []
             else None).
  { intros symbols name.
    pose proof (collected_binding utcnow self symbols N name) as B.
    destruct (existsb (String.eqb name) (exchange_names self) &&
              mem name (exchanges self)); [| exact B].
    rewrite B. f_equal.
    assert (G : getitem name (collect_all_exchanges utcnow self symbols N)
                = []).
    { unfold collect_all_exchanges.
      rewrite getitem_process_results. apply tickers_of_tasks_nil.
      intros info I. apply (T symbols). unfold tasks_of in I.
      now apply filter_In in I. }
    unfold getitem in G. now rewrite B in G. }
  split; [| split; [| split]].
  - apply pulse_no_tickers. apply T.
  - exact L.
  - intros symbols. split.
    + intros E name I. specialize (L symbols name). rewrite E in L.
      assert (X : existsb (String.eqb name) (exchange_names self) = true).
      { apply existsb_exists. exists name. split; [exact I |].
        apply String.eqb_refl. }
      rewrite X in L. simpl in L.
      destruct (mem name (exchanges self)); [discriminate | reflexivity].
    + intros H. unfold collect_all_exchanges.
      now rewrite (tasks_with_info_unbuilt utcnow self symbols N H).
  - intros symbols. apply aggregate_no_observations.
    apply process_results_no_tickers. apply T.
Qed.

Lemma all_adapters_fail_empty_result_witness :
  get_market_pulse noon all_fail 50 = Ok [] /\
  (forall symbols name,
     lookup name (collect_all_exchanges noon all_fail symbols 50) =
     if existsb (String.eqb name) (exchange_names all_fail) &&
        mem name (exchanges all_fail)
     then Some []
     else None) /\
  (forall symbols,
     collect_all_exchanges noon all_fail symbols 50 = [] <->
     forall name,
       In name (exchange_names all_fail) ->
       mem name (exchanges all_fail) = false) /\
  (forall symbols,
     aggregate (collect_all_exchanges noon all_fail symbols 50) = Ok []).
Proof.
  apply (all_adapters_fail_empty_result noon all_fail 50).
  intros name [<- | [<- | []]]; vm_compute; eauto.
Defined.

(** X9.  The mapping that [collect_all_exchanges] returns binds an
    exchange exactly when its name is among the collector's names and the
    exchange was built.  The list bound to it holds the tickers fetched
    from that exchange (one per symbol that could be fetched, in the order
    of the symbols; or its top pairs when no symbol, or an empty list of
    symbols, is given), once for every time the name is listed: an
    exchange listed twice is fetched twice and its tickers appear twice. *)
Theorem collect_all_exchanges_binding (utcnow : string)
  (self : MarketCollector) (symbols : option (list string)) (limit : Z)
  (name : string) :
  lookup name (collect_all_exchanges utcnow self symbols limit) =
  if existsb (String.eqb name) (exchange_names self) &&
     mem name (exchanges self)
  then Some
         (List.concat
            (repeat (exchange_tickers utcnow self symbols limit name)
               (count_occ string_dec (exchange_names self) name)))
  else None.
Proof. apply collected_binding. Qed.

(** X10.  With a list of exchange names without repetition, the list bound
    to a built exchange is what that exchange alone returned; and when a
    non-empty list of symbols is given, every ticker of the mapping
    carries one of the symbols asked for. *)
Theorem collect_all_exchanges_content (utcnow : string)
  (self : MarketCollector) (symbols : option (list string)) (limit : Z)
  (name : string) :
  NoDup (exchange_names self) ->
  In name (exchange_names self) ->
  mem name (exchanges self) = true ->
  lookup name (collect_all_exchanges utcnow self symbols limit) =
    Some (exchange_tickers utcnow self symbols limit name) /\
  (forall s0 rest t,
     symbols = Some (s0 :: rest) ->
     In t (exchange_tickers utcnow self symbols limit name) ->
     In (symbol t) (s0 :: rest)).
Proof.
  intros ND I M. split.
  - rewrite collected_binding, M.
    assert (E : existsb (String.eqb name) (exchange_names self) = true).
    { apply existsb_exists. exists name. split; [exact I |].
      apply String.eqb_refl. }
    rewrite E. simpl. f_equal.
    assert (C : count_occ string_dec (exchange_names self) name = 1%nat).
    { apply NoDup_count_occ' with (decA := string_dec) (x := name) in ND;
        assumption. }
    rewrite C. simpl. apply app_nil_r.
  - intros s0 rest t -> It. unfold exchange_tickers in It. rewrite M in It.
    apply in_flat_map in It as (s & Is & It).
    unfold get_ticker in It.
    destruct (lookup name (exchanges self)) as [e |]; [| destruct It].
    destruct (fetch_ticker e s); [| destruct It].
    destruct It as [<- | []]. exact Is.
Qed.

Lemma collect_all_exchanges_content_witness :
  lookup "B" (collect_all_exchanges noon A_fails (Some ["BTC/USDT"; "ETH/USDT"]) 50) =
    Some (exchange_tickers noon A_fails (Some ["BTC/USDT"; "ETH/USDT"]) 50 "B") /\
  (forall s0 rest t,
     Some ["BTC/USDT"; "ETH/USDT"] = Some (s0 :: rest) ->
     In t (exchange_tickers noon A_fails (Some ["BTC/USDT"; "ETH/USDT"]) 50 "B") ->
     In (symbol t) (s0 :: rest)).
Proof.
  apply (collect_all_exchanges_content noon A_fails
           (Some ["BTC/USDT"; "ETH/USDT"]) 50%Z "B").
  - repeat constructor; simpl; intuition discriminate.
  - right. left. reflexivity.
  - reflexivity.
Defined.

(** ** When the aggregation fails *)

Lemma add_ticker_ok_volume (exchange_name : string) (t : ticker)
  (symbol_map symbol_map' : dict aggregated) :
  add_ticker exchange_name t symbol_map = Ok symbol_map' ->
  is_number (volume_24h t) = true.
Proof.
  unfold add_ticker. destruct (add_ticker_bound t symbol_map) as [data ->].
  destruct (total_volume_24h data), (volume_24h t); simpl;
    discriminate || reflexivity.
Qed.

Lemma add_observations_ok_volumes (obs : list (string * ticker))
  (symbol_map symbol_map' : dict aggregated) :
  add_observations obs symbol_map = Ok symbol_map' ->
  forallb (fun o => is_number (volume_24h (snd o))) obs = true.
Proof.
  revert symbol_map. induction obs as [| o obs IH]; intros symbol_map H;
    [reflexivity |].
  simpl in *. apply bind_ok in H as (m & Hm & H).
  rewrite (add_ticker_ok_volume (fst o) (snd o) symbol_map m Hm).
  exact (IH m H).
Qed.

Lemma calculate_all_each (symbol_map symbol_map' : dict aggregated)
  (s : string) (d : aggregated) :
  calculate_all symbol_map = Ok symbol_map' ->
  In (s, d) symbol_map ->
  exists d', calculate d = Ok d'.
Proof.
  revert symbol_map'. induction symbol_map as [| [k a] rest IH];
    intros symbol_map' H I; [destruct I |].
  simpl in H. apply bind_ok in H as (a' & Ha & H).
  apply bind_ok in H as (r' & Hr & _).
  destruct I as [[= -> ->] | I]; [eauto |]. exact (IH r' Hr I).
Qed.

Lemma calculate_ok_numbers (d d' : aggregated) :
  calculate d = Ok d' ->
  forallb is_number (map entry_price (agg_exchanges d)) = true /\
  forallb is_number (map entry_change_24h (agg_exchanges d)) = true.
Proof.
  unfold calculate. destruct (agg_exchanges d) as [| c r] eqn:E.
  - intros _. split; reflexivity.
  - intros H. unfold py_sum in H.
    apply bind_ok in H as (sp & Hp & H). apply bind_ok in H as (ap & _ & H).
    apply bind_ok in H as (sc & Hc & _).
    split; [exact (sum_from_ok_numbers _ _ Hp) |
            exact (sum_from_ok_numbers _ _ Hc)].
Qed.

Lemma aggregate_ok_numeric (all_data : dict (list ticker))
  (symbol_map : dict aggregated) :
  aggregate all_data = Ok symbol_map -> numeric_data all_data = true.
Proof.
  unfold aggregate. intros H. apply bind_ok in H as (m0 & H0 & H).
  pose proof (first_loop_represents _ H0) as [ND R].
  rewrite add_exchanges_observations in H0.
  pose proof (add_observations_ok_volumes _ _ _ H0) as V.
  unfold numeric_data. apply forallb_forall. intros [ex t] I.
  rewrite forallb_forall in V. pose proof (V _ I) as Vt. cbn [snd] in Vt.
  set (s := symbol t).
  assert (Ib : In (ex, t) (bucket s (observations all_data))).
  { unfold bucket. apply filter_In. split; [exact I |].
    apply String.eqb_refl. }
  specialize (R s). destruct (lookup s m0) as [d |] eqn:L.
  - destruct R as (_ & _ & B2 & _).
    destruct (calculate_all_each m0 symbol_map s d H (lookup_in _ _ L))
      as [d' C].
    apply calculate_ok_numbers in C as [P Ch].
    rewrite forallb_forall in P, Ch.
    assert (Ic : In (contribution_of ex t) (agg_exchanges d)).
    { rewrite B2. unfold contributions_of.
      change (contribution_of ex t)
        with ((fun o => contribution_of (fst o) (snd o)) (ex, t)).
      now apply in_map. }
    unfold numeric_ticker. cbn [snd].
    rewrite (P (price t)), Vt, (Ch (change_24h t)); [reflexivity | |].
    + change (change_24h t) with (entry_change_24h (contribution_of ex t)).
      now apply in_map.
    + change (price t) with (entry_price (contribution_of ex t)).
      now apply in_map.
  - rewrite R in Ib. destruct Ib.
Qed.

(** X11.  The aggregation of [get_market_pulse] returns exactly when the
    price, the volume and the change of every collected ticker are
    numbers; one [None] among them makes the whole call raise, and what it
    raises is always a [TypeError]. *)
Theorem aggregate_fails_exactly_on_none (all_data : dict (list ticker)) :
  is_ok (aggregate all_data) = numeric_data all_data /\
  (numeric_data all_data = false -> aggregate all_data = Raise TypeError) /\
  (forall utcnow self N,
     is_ok (get_market_pulse utcnow self N) =
     numeric_data (collect_all_exchanges utcnow self None N)).
Proof.
  assert (G : forall data, is_ok (aggregate data) = numeric_data data).
  { intros data. destruct (numeric_data data) eqn:Num.
    - destruct (aggregate_numeric _ Num) as (m & -> & _). reflexivity.
    - destruct (aggregate data) as [m | e] eqn:A; [| reflexivity].
      apply aggregate_ok_numeric in A. congruence. }
  split; [apply G |]. split.
  - intros Num. pose proof (G all_data) as E. rewrite Num in E.
    destruct (aggregate all_data) as [m | e] eqn:A; [discriminate |].
    now rewrite (aggregate_raises _ A).
  - intros utcnow self N. rewrite <- G. unfold get_market_pulse.
    now destruct (aggregate (collect_all_exchanges utcnow self None N)).
Qed.

Lemma aggregate_fails_exactly_on_none_witness :
  aggregate (collect_all_exchanges noon reports_none None 50)
  = Raise TypeError.
Proof.
  apply (proj1 (proj2 (aggregate_fails_exactly_on_none
                  (collect_all_exchanges noon reports_none None 50)))).
  reflexivity.
Defined.

(** X12.  The aggregation sees the collected data only through the
    sequence of its (exchange, ticker) observations: two mappings with
    the same observations aggregate alike; so an exchange bound to
    the empty list changes nothing. *)
Theorem aggregate_of_observations (all_data all_data' : dict (list ticker)) :
  observations all_data = observations all_data' ->
  aggregate all_data = aggregate all_data'.
Proof.
  intros E. unfold aggregate. now rewrite !add_exchanges_observations, E.
Qed.

Lemma aggregate_of_observations_witness :
  aggregate (collect_all_exchanges noon A_fails None 50) =
  aggregate [("B", get_top_pairs noon A_fails "B" 50)].
Proof.
  apply aggregate_of_observations. reflexivity.
Defined.

(** ** The records of the pulse *)

Lemma get_top_pairs_positive (utcnow : string) (self : MarketCollector)
  (name : string) (limit : Z) (t : ticker) :
  In t (get_top_pairs utcnow self name limit) ->
  exists q, volume_24h t = VNum q /\ (0 <? q)%float = true.
Proof.
  unfold get_top_pairs, top_pairs_of.
  destruct (lookup name (exchanges self)) as [e |]; [| intros []].
  destruct (fetch_tickers e) as [tickers | err]; [| intros []]. simpl.
  destruct (usdt_pairs tickers) as [pairs | err] eqn:U; [| intros []].
  simpl. intros I. apply append_results_in in I as (raw & I & _ & ->).
  apply slice_to_incl in I.
  apply (Permutation_in _ (sorted_desc_permutation quote_volume pairs)) in I.
  destruct (@usdt_pairs_in _ _ _ U I) as (key & _ & _ & q & Hq & Pos).
  exists q. split; [exact Hq | exact Pos].
Qed.

Lemma observations_in (all_data : dict (list ticker)) (ex : string)
  (t : ticker) :
  In (ex, t) (observations all_data) ->
  exists l, In (ex, l) all_data /\ In t l.
Proof.
  unfold observations. intros I.
  apply in_flat_map in I as ([k l] & Ik & I). simpl in I.
  apply in_map_iff in I as (t' & [= <- <-] & It). eauto.
Qed.

Lemma tickers_of_tasks_in (tasks : list (string * task)) (t : ticker) :
  In t (tickers_of_tasks tasks) ->
  exists info, In info tasks /\ In t (tickers_of_task (snd info)).
Proof. unfold tickers_of_tasks. apply in_flat_map. Qed.

Lemma pulse_observations_positive (utcnow : string) (self : MarketCollector)
  (N : Z) (ex : string) (t : ticker) :
  In (ex, t) (observations (collect_all_exchanges utcnow self None N)) ->
  exists q, volume_24h t = VNum q /\ (0 <? q)%float = true.
Proof.
  intros I. apply observations_in in I as (l & Il & It).
  unfold collect_all_exchanges in Il.
  apply in_lookup in Il;
    [| apply NoDup_keys_fold_process; constructor].
  assert (G : getitem ex (process_results (tasks_with_info utcnow self None N))
              = l) by (unfold getitem; now rewrite Il).
  rewrite getitem_process_results in G. subst l.
  apply tickers_of_tasks_in in It as (info & Ii & It).
  unfold tasks_of in Ii. apply filter_In in Ii as [Ii _].
  apply tasks_with_info_none in Ii. rewrite Ii in It. simpl in It.
  now apply get_top_pairs_positive in It.
Qed.

Lemma aggregate_total_sum (all_data : dict (list ticker))
  (symbol_map : dict aggregated) (s : string) (d : aggregated) :
  aggregate all_data = Ok symbol_map ->
  In (s, d) symbol_map ->
  py_sum (map (fun o => volume_24h (snd o))
            (bucket s (observations all_data)))
  = Ok (total_volume_24h d).
Proof.
  unfold aggregate. intros H I.
  apply bind_ok in H as (m0 & H0 & H).
  apply first_loop_represents in H0 as [ND R].
  destruct (@calculate_all_in _ _ _ _ H I) as (d0 & I0 & C).
  apply (in_lookup _ _ _ ND) in I0. specialize (R s). rewrite I0 in R.
  destruct R as (_ & _ & _ & _ & _ & _ & S).
  apply calculate_keeps in C as (_ & _ & ->). exact S.
Qed.

(** The total volumes that [get_market_pulse] ranks are positive. *)
Lemma collected_total_positive (utcnow : string) (self : MarketCollector)
  (N : Z) (symbol_map : dict aggregated) (s : string) (d : aggregated) :
  aggregate (collect_all_exchanges utcnow self None N) = Ok symbol_map ->
  In (s, d) symbol_map ->
  exists q, total_volume_24h d = VNum q /\ (0 <? q)%float = true.
Proof.
  intros Hm I.
  pose proof (aggregate_total_sum _ _ s d Hm I) as S.
  destruct (aggregate_contributions _ _ _ Hm I) as (_ & NE & _).
  set (b := bucket s (observations (collect_all_exchanges utcnow self None N)))
    in *.
  assert (P : forall o, In o b ->
              exists q, volume_24h (snd o) = VNum q /\ (0 <? q)%float = true).
  { intros [ex t] Io. unfold b, bucket in Io. apply filter_In in Io as [Io _].
    exact (pulse_observations_positive utcnow self N ex t Io). }
  assert (Nv : forallb is_number (map (fun o => volume_24h (snd o)) b) = true).
  { rewrite forallb_map. apply forallb_forall. intros o Io.
    destruct (P o Io) as (q & -> & _). reflexivity. }
  rewrite (py_sum_numbers _ Nv) in S. injection S as S.
  eexists. split; [symmetry; exact S |].
  apply (@total_positive _).
  - destruct b; [congruence | discriminate].
  - apply Forall_forall. intros x Ix. rewrite map_map in Ix.
    apply in_map_iff in Ix as (o & <- & Io).
    destruct (P o Io) as (q & -> & Pos). exact Pos.
Qed.

Lemma collected_volumes_not_nan (utcnow : string) (self : MarketCollector)
  (N : Z) (symbol_map : dict aggregated) :
  aggregate (collect_all_exchanges utcnow self None N) = Ok symbol_map ->
  volumes_not_nan symbol_map = true.
Proof.
  intros Hm. apply no_nan_keys, Forall_forall. intros d I.
  unfold values in I. apply in_map_iff in I as ([s d'] & E & I).
  simpl in E. subst d'.
  destruct (collected_total_positive utcnow self N symbol_map s d Hm I)
    as (q & Hq & Pos).
  unfold total_volume. rewrite Hq. simpl. now apply fltb_not_nan in Pos.
Qed.

Lemma orderable_not_nan (symbol_map : dict aggregated) :
  orderable symbol_map -> volumes_not_nan symbol_map = true.
Proof.
  intros [NN | (utcnow & self & M & Hm)]; [exact NN |].
  exact (collected_volumes_not_nan utcnow self M symbol_map Hm).
Qed.

(** C3, as the code has it.  For a limit N > 0 and total volumes that the
    sort can order (none of them NaN, which holds of every symbol map
    that [get_market_pulse] builds, whose total volumes are positive), the
    ranking that ends [get_market_pulse] is sorted by total volume,
    greatest first; records with the same volume keep the order in which
    their symbols entered the symbol map (the sort is stable and compares
    volumes only); its length is min(N, number of symbols), and when
    there are at most N symbols all of them are returned. *)
Theorem rank_sorted_stable (symbol_map : dict aggregated) (N : Z) :
  (0 < N)%Z ->
  orderable symbol_map ->
  StronglySorted by_volume (rank symbol_map N) /\
  (forall v, exists rest,
     with_volume v (values symbol_map) =
     with_volume v (rank symbol_map N) ++ rest) /\
  List.length (rank symbol_map N) =
    Nat.min (Z.to_nat N) (List.length (keys symbol_map)) /\
  ((List.length (keys symbol_map) <= Z.to_nat N)%nat ->
   Permutation (rank symbol_map N) (values symbol_map)).
Proof.
  intros HN NN. pose proof (orderable_not_nan symbol_map NN) as NN'.
  clear NN. unfold rank, slice_to.
  destruct (Z.ltb_spec N 0) as [L | _]; [lia |].
  pose proof (sorted_desc_sorted (volumes_not_nan_keys symbol_map NN')) as S.
  pose proof (sorted_desc_permutation total_volume (values symbol_map)) as P.
  assert (Len : List.length (sorted_desc total_volume (values symbol_map))
                = List.length (keys symbol_map)).
  { rewrite (Permutation_length P). unfold values, keys.
    now rewrite !length_map. }
  repeat split.
  - now apply firstn_strongly_sorted.
  - intros v. unfold with_volume.
    rewrite <- (sorted_desc_stable total_volume v (values symbol_map)).
    apply filter_firstn_prefix.
  - now rewrite length_firstn, Len.
  - intros Few. rewrite firstn_all2 by lia. exact P.
Qed.

Lemma rank_sorted_stable_witness :
  aggregate
    [("A", [ticker_of noon "ZRX/USDT" (quote "ZRX/USDT" 1 100 1);
            ticker_of noon "BTC/USDT" (quote "BTC/USDT" 1 300 1);
            ticker_of noon "ADA/USDT" (quote "ADA/USDT" 1 100 1)])]
    = Ok tied_map /\
  map agg_symbol (values tied_map) = ["ZRX/USDT"; "BTC/USDT"; "ADA/USDT"] /\
  map agg_symbol (rank tied_map 2) = ["BTC/USDT"; "ZRX/USDT"] /\
  StronglySorted by_volume (rank tied_map 2) /\
  (forall v, exists rest,
     with_volume v (values tied_map) =
     with_volume v (rank tied_map 2) ++ rest) /\
  List.length (rank tied_map 2) =
    Nat.min (Z.to_nat 2) (List.length (keys tied_map)) /\
  ((List.length (keys tied_map) <= Z.to_nat 2)%nat ->
   Permutation (rank tied_map 2) (values tied_map)).
Proof.
  split; [vm_compute; reflexivity |].
  split; [reflexivity |]. split; [vm_compute; reflexivity |].
  apply (rank_sorted_stable tied_map 2%Z).
  - lia.
  - left. vm_compute. reflexivity.
Defined.

(** C3 as stated fails on ties: one exchange reports ZRX/USDT and then
    ADA/USDT, both with volume 100; the pulse lists ZRX/USDT before
    ADA/USDT, which is the order of arrival and not the order of the
    names. *)
Lemma rank_ties_not_by_symbol :
  exists pulse,
    get_market_pulse noon tied 10 = Ok pulse /\
    List.map agg_symbol pulse = ["ZRX/USDT"; "ADA/USDT"] /\
    ~ StronglySorted by_volume_then_symbol pulse.
Proof.
  eexists. split; [vm_compute; reflexivity |]. split; [reflexivity |].
  intros S. inversion S as [| a l _ F]; subst.
  inversion F as [| b l' R _]; subst.
  destruct R as [R | [_ R]]; vm_compute in R; discriminate.
Qed.

(** X8.  The ranking of [get_market_pulse] keeps the greatest total
    volumes, whatever the limit: a record of the symbol map whose total
    volume is greater than that of some ranked record is itself ranked.
    The total volumes are numbers that the sort can order: none of them
    is NaN, which holds of every symbol map that [get_market_pulse]
    builds. *)
Theorem rank_keeps_greatest (symbol_map : dict aggregated) (N : Z)
  (d d' : aggregated) :
  orderable symbol_map ->
  In d (rank symbol_map N) ->
  In d' (values symbol_map) ->
  (total_volume d <? total_volume d')%float = true ->
  In d' (rank symbol_map N).
Proof.
  unfold rank. intros NN. apply slice_sorted_keeps_greater.
  now apply volumes_not_nan_keys, orderable_not_nan.
Qed.

Lemma rank_keeps_greatest_witness :
  In (summary "ETH/USDT"
        [("A", ticker_of noon "ETH/USDT" (quote "ETH/USDT" 3000 500 2))])
     (rank
        [("BTC/USDT",
          summary "BTC/USDT"
            [("A", ticker_of noon "BTC/USDT" (quote "BTC/USDT" 50000 300 1))]);
         ("ETH/USDT",
          summary "ETH/USDT"
            [("A", ticker_of noon "ETH/USDT" (quote "ETH/USDT" 3000 500 2))]);
         ("SOL/USDT",
          summary "SOL/USDT"
            [("A", ticker_of noon "SOL/USDT" (quote "SOL/USDT" 150 400 3))])]
        2).
Proof.
  apply (rank_keeps_greatest
           [("BTC/USDT",
             summary "BTC/USDT"
               [("A", ticker_of noon "BTC/USDT" (quote "BTC/USDT" 50000 300 1))]);
            ("ETH/USDT",
             summary "ETH/USDT"
               [("A", ticker_of noon "ETH/USDT" (quote "ETH/USDT" 3000 500 2))]);
            ("SOL/USDT",
             summary "SOL/USDT"
               [("A", ticker_of noon "SOL/USDT" (quote "SOL/USDT" 150 400 3))])]
           2%Z
           (summary "SOL/USDT"
              [("A", ticker_of noon "SOL/USDT" (quote "SOL/USDT" 150 400 3))])
           (summary "ETH/USDT"
              [("A", ticker_of noon "ETH/USDT" (quote "ETH/USDT" 3000 500 2))])).
  - left. vm_compute. reflexivity.
  - vm_compute. right. left. reflexivity.
  - right. left. reflexivity.
  - vm_compute. reflexivity.
Defined.

(** X13.  Every record of the pulse that [get_market_pulse] returns has a
    total volume greater than zero: only tickers with a positive volume
    pass the filter of [get_top_pairs], and each record sums at least
    one of them. *)
Theorem pulse_volume_positive (utcnow : string) (self : MarketCollector)
  (N : Z) (pulse : list aggregated) (d : aggregated) :
  get_market_pulse utcnow self N = Ok pulse ->
  In d pulse ->
  exists q, total_volume_24h d = VNum q /\ (0 <? q)%float = true.
Proof.
  unfold get_market_pulse. intros H I.
  apply bind_ok in H as (m & Hm & H). injection H as <-.
  apply rank_incl in I as [s I].
  exact (collected_total_positive utcnow self N m s d Hm I).
Qed.

Lemma pulse_volume_positive_witness :
  exists pulse,
    get_market_pulse noon both_report 50 = Ok pulse /\
    Forall (fun d => exists q, total_volume_24h d = VNum q /\ (0 <? q)%float = true)
      pulse.
Proof.
  eexists. split; [vm_compute; reflexivity |].
  apply Forall_forall. intros d I.
  refine (pulse_volume_positive noon both_report 50%Z _ d _ I).
  vm_compute. reflexivity.
Defined.

Lemma NoDup_firstn {A : Type} (n : nat) (l : list A) :
  NoDup l -> NoDup (firstn n l).
Proof.
  intros ND. rewrite <- (firstn_skipn n l) in ND.
  now apply NoDup_app_remove_r in ND.
Qed.

Lemma aggregate_symbols (all_data : dict (list ticker))
  (symbol_map : dict aggregated) :
  aggregate all_data = Ok symbol_map ->
  map agg_symbol (values symbol_map) = keys symbol_map.
Proof.
  intros H.
  assert (G : forall s d, In (s, d) symbol_map -> agg_symbol d = s).
  { intros s d I. now destruct (aggregate_contributions _ _ _ H I). }
  clear H. unfold values, keys. rewrite map_map.
  induction symbol_map as [| [k d] rest IH]; [reflexivity |].
  simpl. rewrite (G k d) by now left. f_equal.
  apply IH. intros s a I. apply G. now right.
Qed.

(** X14.  The records of the pulse that [get_market_pulse] returns have
    pairwise different symbols, and each of these symbols was reported by
    some collected ticker. *)
Theorem pulse_symbols_distinct (utcnow : string) (self : MarketCollector)
  (N : Z) (pulse : list aggregated) :
  get_market_pulse utcnow self N = Ok pulse ->
  NoDup (map agg_symbol pulse) /\
  forall d,
    In d pulse ->
    In (agg_symbol d)
       (map (fun o => symbol (snd o))
          (observations (collect_all_exchanges utcnow self None N))).
Proof.
  unfold get_market_pulse. intros H.
  apply bind_ok in H as (m & Hm & H). injection H as <-.
  destruct (aggregate_keys _ Hm) as [ND K]. split.
  - unfold rank.
    destruct (slice_to_firstn N (sorted_desc total_volume (values m)))
      as [k ->].
    rewrite <- firstn_map. apply NoDup_firstn.
    apply (Permutation_NoDup
             (l := map agg_symbol (values m))).
    + apply Permutation_map, Permutation_sym, sorted_desc_permutation.
    + now rewrite (aggregate_symbols _ _ Hm).
  - intros d I. apply rank_incl in I as [s I].
    destruct (aggregate_contributions _ _ _ Hm I) as (-> & _).
    apply K. change s with (fst (s, d)). now apply in_map.
Qed.

Lemma pulse_symbols_distinct_witness :
  exists pulse,
    get_market_pulse noon five_pairs 50 = Ok pulse /\
    NoDup (map agg_symbol pulse).
Proof.
  eexists. split; [vm_compute; reflexivity |].
  refine (proj1 (pulse_symbols_distinct noon five_pairs 50%Z _ _)).
  vm_compute. reflexivity.
Defined.

(** * Properties of the callers *)

Section StorageFacts.

Variable DB : Type.
Variable save_snapshot : DB -> snapshot -> DB * option exn.



Lemma save_exchanges_store (item : aggregated) (l : list contribution)
  (db db' : DB) (c : nat) :
  save_exchanges save_snapshot item l db = Ok db' ->
  store_exchanges save_snapshot item l db c = (db', (c + List.length l)%nat).
Proof.
  revert db c. induction l as [| x l IH]; intros db c; simpl.
  - intros [= <-]. f_equal. lia.
  - destruct (save_snapshot db (snapshot_of item x)) as [db1 [e |]];
      [discriminate |].
    intros H. rewrite (IH db1 (S c) H). f_equal. lia.
Qed.


(** X18.  When the loop by which [get_pulse_callback] saves a fresh pulse
    ends without an exception, the loop of [collect_and_store] over the
    same pulse leaves the database in the same state, and the count it
    logs is the number of contributions of the records of the pulse. *)
Theorem save_pulse_agrees_with_store (pulse_data : list aggregated)
  (db db' : DB) :
  save_pulse save_snapshot pulse_data db = Ok db' ->
  store_pulse save_snapshot pulse_data db 0 =
  (db', List.length (flat_map agg_exchanges pulse_data)).
Proof.
  assert (G : forall pulse d d' c,
             save_pulse save_snapshot pulse d = Ok d' ->
             store_pulse save_snapshot pulse d c =
             (d', (c + List.length (flat_map agg_exchanges pulse))%nat)).
  { induction pulse as [| item pulse IH]; intros d d' c; simpl.
    - intros [= <-]. f_equal. lia.
    - intros H. apply bind_ok in H as (d1 & H1 & H).
      rewrite (save_exchanges_store item _ d d1 c H1).
      rewrite (IH d1 d' _ H), length_app. f_equal. lia. }
  intros H. now rewrite (G pulse_data db db' 0%nat H).
Qed.

End StorageFacts.

Lemma save_pulse_agrees_with_store_witness :
  store_pulse (fun (db : list snapshot) s => (db ++ [s], None))
    [summary "BTC/USDT"
       [("A", ticker_of noon "BTC/USDT" (quote "BTC/USDT" 50000 100 1));
        ("B", ticker_of noon "BTC/USDT" (quote "BTC/USDT" 50010 300 3))]]
    [] 0 =
  (map (snapshot_of
          (summary "BTC/USDT"
             [("A", ticker_of noon "BTC/USDT" (quote "BTC/USDT" 50000 100 1));
              ("B", ticker_of noon "BTC/USDT" (quote "BTC/USDT" 50010 300 3))]))
       (contributions_of
          [("A", ticker_of noon "BTC/USDT" (quote "BTC/USDT" 50000 100 1));
           ("B", ticker_of noon "BTC/USDT" (quote "BTC/USDT" 50010 300 3))]),
   List.length
     (flat_map agg_exchanges
        [summary "BTC/USDT"
           [("A", ticker_of noon "BTC/USDT" (quote "BTC/USDT" 50000 100 1));
            ("B", ticker_of noon "BTC/USDT" (quote "BTC/USDT" 50010 300 3))]])).
Proof.
  apply (save_pulse_agrees_with_store (list snapshot)
           (fun db s => (db ++ [s], None))).
  reflexivity.
Defined.

(** ** Subscriptions *)

Section SubscriptionFacts.

Variable FREE : Z.
Variable PRO : Z.
Variable PREMIUM : Z.
Variable users : Z -> result (option sql_value).

Lemma effective_level (level : string) :
  lookup (if mem level (SUBSCRIPTION_LEVELS FREE PRO PREMIUM) then level
          else "free") (SUBSCRIPTION_LEVELS FREE PRO PREMIUM) =
  Some
    (if String.eqb level "pro" then pro_level PRO
     else if String.eqb level "premium" then premium_level PREMIUM
     else free_level FREE).
Proof.
  unfold mem, SUBSCRIPTION_LEVELS. cbn [lookup].
  destruct (String.eqb_spec level "free") as [-> | Nf]; [reflexivity |].
  destruct (String.eqb_spec level "pro") as [-> | Np]; [reflexivity |].
  destruct (String.eqb_spec level "premium") as [-> | Nm]; reflexivity.
Qed.

Lemma effective_entry (level : sql_value) :
  level_entry FREE PRO PREMIUM
    (if configured FREE PRO PREMIUM level then level else SqlText "free") =
  Some
    match level with
    | SqlText s =>
        if String.eqb s "pro" then pro_level PRO
        else if String.eqb s "premium" then premium_level PREMIUM
        else free_level FREE
    | _ => free_level FREE
    end.
Proof.
  destruct level as [| z | x | s | b]; try reflexivity.
  pose proof (effective_level s) as E. unfold configured, level_entry, mem in *.
  destruct (lookup s (SUBSCRIPTION_LEVELS FREE PRO PREMIUM)); exact E.
Qed.

(** The interval that [can_access_pulse] applies to a user. *)
Lemma can_access_pulse_interval (user_id : Z) (row : option sql_value)
  (last : option datetime) (now : Z) :
  users user_id = Ok row ->
  can_access_pulse FREE PRO PREMIUM users user_id last now =
  access_after (pulse_interval_hours (applied_level FREE PRO PREMIUM row)) last now.
Proof.
  intros U. unfold can_access_pulse, get_user_subscription. rewrite U.
  cbn [bind fst]. fold (level_of_row row). rewrite effective_entry.
  unfold applied_level. now destruct last.
Qed.

Lemma applied_level_free (row : option sql_value) :
  (forall s, row = Some (SqlText s) -> s <> "pro" /\ s <> "premium") ->
  applied_level FREE PRO PREMIUM row = free_level FREE.
Proof.
  intros H. unfold applied_level.
  destruct (level_of_row row) as [| z | x | s | b] eqn:E; try reflexivity.
  assert (R : s = "free" \/ row = Some (SqlText s)).
  { destruct row as [[| z | x | s' | b] |]; simpl in E;
      try (injection E as <-; now left);
      try (destruct (negb _) in E; [discriminate | injection E as <-; now left]).
    destruct (negb (String.eqb s' "")); injection E as <-; auto. }
  destruct R as [-> | R]; [reflexivity |].
  destruct (H s R) as [Np Nm]. apply String.eqb_neq in Np, Nm.
  now rewrite Np, Nm.
Qed.

Lemma access_after_raises (h : Z) (last : option datetime) (now : Z) (e : exn) :
  access_after h last now = Raise e -> e = OverflowError \/ e = TypeError.
Proof.
  unfold access_after, timedelta_hours, datetime_add, datetime_le.
  destruct last as [t |]; [| discriminate].
  destruct (Z.abs (h / 24) <=? 999999999)%Z; simpl; [| intros [= <-]; tauto].
  destruct ((0 <=? _) && _)%Z; simpl; [| intros [= <-]; tauto].
  destruct (aware t); [intros [= <-]; tauto | discriminate].
Qed.

Lemma access_after_monotone (h : Z) (last : option datetime) (now now' : Z) :
  (now <= now')%Z ->
  access_after h last now = Ok true -> access_after h last now' = Ok true.
Proof.
  intros Le. unfold access_after, timedelta_hours, datetime_add, datetime_le.
  destruct last as [t |]; [| auto].
  destruct (Z.abs (h / 24) <=? 999999999)%Z; simpl; [| discriminate].
  destruct ((0 <=? _) && _)%Z; simpl; [| discriminate].
  destruct (aware t); [discriminate |].
  intros [= H]. f_equal. apply Z.leb_le in H. apply Z.leb_le. lia.
Qed.

(** X19.  [can_access_pulse] passes on an exception of the database, and
    raises otherwise only when the interval or the next access time
    leaves the range of a date ([OverflowError]) or when the last access
    carries a time zone, which the naive reading of the clock cannot be
    compared with ([TypeError]).  When the database answers, a user who
    has not accessed the pulse before is let in, whoever the user is; a
    user who is not in the table, or whose level is NULL, falsy, not a
    string or not a configured level, waits the interval of the free
    level. *)
Theorem can_access_pulse_fallback (user_id : Z) (last : option datetime)
  (now : Z) :
  (forall e,
     users user_id = Raise e ->
     can_access_pulse FREE PRO PREMIUM users user_id last now = Raise e) /\
  (forall row,
     users user_id = Ok row ->
     can_access_pulse FREE PRO PREMIUM users user_id None now = Ok true) /\
  (forall e,
     can_access_pulse FREE PRO PREMIUM users user_id last now = Raise e ->
     users user_id = Raise e \/ e = OverflowError \/ e = TypeError) /\
  (forall row t,
     users user_id = Ok row ->
     (forall s, row = Some (SqlText s) -> s <> "pro" /\ s <> "premium") ->
     last = Some t ->
     can_access_pulse FREE PRO PREMIUM users user_id last now =
       (delta <- timedelta_hours FREE ;;
        next_access_time <- datetime_add t delta ;;
        datetime_le next_access_time now) /\
     (aware t = false ->
      (Z.abs (FREE / 24) <= 999999999)%Z ->
      (0 <= microseconds t + FREE * 3600000000 <= datetime_max)%Z ->
      can_access_pulse FREE PRO PREMIUM users user_id last now =
        Ok (microseconds t + FREE * 3600000000 <=? now)%Z)).
Proof.
  split; [| split; [| split]].
  - intros e U. unfold can_access_pulse, get_user_subscription.
    now rewrite U.
  - intros row U.
    now rewrite (can_access_pulse_interval user_id row None now U).
  - intros e H. destruct (users user_id) as [row | e'] eqn:U.
    + rewrite (can_access_pulse_interval user_id row last now U) in H.
      right. exact (access_after_raises _ last now e H).
    + left. unfold can_access_pulse, get_user_subscription in H.
      rewrite U in H. simpl in H. now injection H as <-.
  - intros row t U Unc ->.
    rewrite (can_access_pulse_interval user_id row (Some t) now U).
    rewrite (applied_level_free row Unc). cbn [pulse_interval_hours free_level].
    split; [reflexivity |].
    intros Na Hd Hr. unfold access_after, timedelta_hours, datetime_add, datetime_le.
    destruct (Z.leb_spec (Z.abs (FREE / 24)) 999999999); [| lia].
    cbn [bind].
    destruct (Z.leb_spec 0 (microseconds t + FREE * 3600000000)); [| lia].
    destruct (Z.leb_spec (microseconds t + FREE * 3600000000) datetime_max);
      [| lia].
    cbn [andb bind aware microseconds]. now rewrite Na.
Qed.

(** X20.  Access to the pulse is monotone in time: a user who may access
    the pulse at some instant may access it at every later instant, for
    the same last access. *)
Theorem can_access_pulse_monotone (user_id : Z) (last : option datetime)
  (now now' : Z) :
  (now <= now')%Z ->
  can_access_pulse FREE PRO PREMIUM users user_id last now = Ok true ->
  can_access_pulse FREE PRO PREMIUM users user_id last now' = Ok true.
Proof.
  intros Le. destruct (users user_id) as [row | e] eqn:U.
  - rewrite !(can_access_pulse_interval user_id row last _ U).
    now apply access_after_monotone.
  - unfold can_access_pulse, get_user_subscription. now rewrite U.
Qed.

(** X21.  [get_subscription_info] never raises: a configured level gives
    its own entry, with its name, its interval and its features, and any
    other level gives the entry of the free level. *)
Theorem get_subscription_info_total (level : string) :
  (forall info,
     lookup level (SUBSCRIPTION_LEVELS FREE PRO PREMIUM) = Some info ->
     get_subscription_info FREE PRO PREMIUM level = Ok info) /\
  (lookup level (SUBSCRIPTION_LEVELS FREE PRO PREMIUM) = None ->
   get_subscription_info FREE PRO PREMIUM level = Ok (free_level FREE)) /\
  get_subscription_info FREE PRO PREMIUM "free" = Ok (free_level FREE) /\
  get_subscription_info FREE PRO PREMIUM "pro" = Ok (pro_level PRO) /\
  get_subscription_info FREE PRO PREMIUM "premium" =
    Ok (premium_level PREMIUM) /\
  (level <> "free" -> level <> "pro" -> level <> "premium" ->
   get_subscription_info FREE PRO PREMIUM level = Ok (free_level FREE)).
Proof.
  unfold get_subscription_info, mem.
  split; [| split; [| repeat split]].
  - intros info L. rewrite L. cbv iota beta. now rewrite L.
  - intros L. rewrite L. reflexivity.
  - intros Nf Np Nm. apply String.eqb_neq in Nf, Np, Nm.
    unfold SUBSCRIPTION_LEVELS. cbn [lookup]. rewrite Nf, Np, Nm.
    reflexivity.
Qed.

End SubscriptionFacts.

Lemma can_access_pulse_monotone_witness :
  can_access_pulse 4 2 1 (fun _ => Ok (Some (SqlText "pro"))) 7
    (Some {| microseconds := 63840000000000000; aware := false |})
    63840007200000001 = Ok true.
Proof.
  apply (can_access_pulse_monotone 4 2 1
           (fun _ => Ok (Some (SqlText "pro"))) 7
           (Some {| microseconds := 63840000000000000; aware := false |})
           63840007200000000 63840007200000001).
  - lia.
  - reflexivity.
Defined.

(** ** Referral links *)

(** X22.  The start parameter of an invite link leads [start_command]
    back to the referral code of the link, when the code is not empty;
    without arguments, or with a first argument that does not begin with
    "ref_", no referral is processed. *)
Theorem referral_code_round_trip (referral_code : string)
  (more : list string) :
  referral_code <> EmptyString ->
  referral_code_of (Some (start_parameter referral_code :: more)) =
    Some referral_code /\
  referral_code_of None = None /\
  referral_code_of (Some []) = None /\
  (forall arg,
     String.prefix "ref_" arg = false ->
     referral_code_of (Some (arg :: more)) = None) /\
  referral_code_of (Some (start_parameter EmptyString :: more)) = None.
Proof.
  intros NE. repeat split.
  - destruct referral_code as [| a s]; [congruence |]. reflexivity.
  - intros arg P. unfold referral_code_of. now rewrite P.
Qed.

Lemma referral_code_round_trip_witness :
  referral_code_of (Some [start_parameter "aB3_xY9-kLm"]) = Some "aB3_xY9-kLm".
Proof.
  apply (referral_code_round_trip "aB3_xY9-kLm" []). discriminate.
Defined.

(** ** Instances *)


Lemma can_access_pulse_fallback_witness :
  can_access_pulse 4 2 1 (fun _ => Ok (Some (SqlText "vip"))) 7
    (Some {| microseconds := 63840000000000000; aware := false |})
    63840000000000100 =
  Ok (63840000000000000 + 4 * 3600000000 <=? 63840000000000100)%Z.
Proof.
  refine (proj2 (proj2 (proj2 (proj2
            (can_access_pulse_fallback 4 2 1
               (fun _ => Ok (Some (SqlText "vip"))) 7
               (Some {| microseconds := 63840000000000000; aware := false |})
               63840000000000100)))
            (Some (SqlText "vip"))
            {| microseconds := 63840000000000000; aware := false |}
            eq_refl _ eq_refl) eq_refl _ _).
  - intros s [= <-]. split; discriminate.
  - vm_compute. discriminate.
  - vm_compute. split; discriminate.
Defined.

Lemma get_subscription_info_total_witness :
  get_subscription_info 4 2 1 "vip" = Ok (free_level 4) /\
  get_subscription_info 4 2 1 "pro" = Ok (pro_level 2).
Proof.
  split.
  - apply (get_subscription_info_total 4 2 1 "vip"); discriminate.
  - apply (get_subscription_info_total 4 2 1 "pro").
Defined.
